(** * build.py: variant catalog and remote-change cache

    A shallow embedding of the two pieces of [build.py] that carry logic:
    the chapter catalog with its two resolvers ([get_build_variants],
    [get_chapter_name_from_git_tag]) and the [LastModifiedManager] class
    (the url -> Last-Modified cache kept in [lastModified.json]).

    Python [str] values are modelled as [string]; a character is its code
    point, which covers code points 0..255.  That is the range of every
    value the script records: [http.client] decodes header values as
    ISO-8859-1, and the urls are ASCII constants of the script. *)

From Stdlib Require Import Ascii String List NArith ZArith Lia.
From stdpp Require Import base option list strings gmap fin_maps pretty.

Local Open Scope string_scope.
Local Open Scope list_scope.

(** ** Exceptions and results *)

(** The exceptions the modelled code can raise.  [Exception] is the plain
    [raise Exception(msg)] of the script; the others come from the library
    calls it makes ([urlopen], [None.strip()], [json.load]). *)
Inductive exn : Type :=
  | Exception (msg : string)
  | KeyError
  | TypeError
  | URLError
  | AttributeError
  | JSONDecodeError.

(** A call either raises or returns. *)
Inductive result (A : Type) : Type :=
  | Raise (e : exn)
  | Return (a : A).
Arguments Raise {A} e.
Arguments Return {A} a.

Definition returns {A} (r : result A) : Prop := ∃ a, r = Return a.
Definition raises {A} (r : result A) : Prop := ∃ e, r = Raise e.

(** ** Python dicts

    A [dict] with [str] keys, kept as the list of its items in insertion
    order (the order [.keys()], [.values()] and [json.dump] follow).  A
    well-formed dict holds each key once. *)

Module PyDict.
Section dict.
Context {V : Type}.

Definition dict := list (string * V).

Definition keys (d : dict) : list string := map fst d.
Definition values (d : dict) : list V := map snd d.

(** [d.get(k)]: [None] when the key is absent. *)
Fixpoint get (d : dict) (k : string) : option V :=
  match d with
  | [] => None
  | (k', v) :: d' => if String.eqb k k' then Some v else get d' k
  end.

(** [k in d] *)
Definition contains (d : dict) (k : string) : bool :=
  match get d k with Some _ => true | None => false end.

(** [d[k] = v]: a present key keeps its place and takes the new value,
    a new key goes to the end. *)
Fixpoint setitem (d : dict) (k : string) (v : V) : dict :=
  match d with
  | [] => [(k, v)]
  | (k', v') :: d' =>
      if String.eqb k k' then (k', v) :: d' else (k', v') :: setitem d' k v
  end.

(** [dict(pairs)]: later pairs win over earlier ones with the same key. *)
Definition of_pairs (pairs : list (string * V)) : dict :=
  fold_left (λ d kv, setitem d kv.1 kv.2) pairs [].

Definition wf (d : dict) : Prop := NoDup (keys d).
End dict.
Arguments dict V : clear implicits.
End PyDict.

(** ** The variant catalog *)

Module Catalog.

Definition chapter_to_build_variants : PyDict.dict (list string) :=
  [ ("onikakushi",
      [ "onikakushi 5.2.2f1 win";
        "onikakushi 5.2.2f1 unix" ]);
    ("watanagashi",
      [ "watanagashi 5.2.2f1 win";
        "watanagashi 5.2.2f1 unix" ]);
    ("tatarigoroshi",
      [ "tatarigoroshi 5.4.0f1 win";
        "tatarigoroshi 5.4.0f1 unix";
        "tatarigoroshi 5.3.5f1 win";
        "tatarigoroshi 5.3.4p1 win";
        "tatarigoroshi 5.3.4p1 unix" ]);
    ("himatsubushi",
      [ "himatsubushi 5.4.1f1 win";
        "himatsubushi 5.4.1f1 unix" ]);
    ("meakashi",
      [ "meakashi 5.5.3p3 win";
        "meakashi 5.5.3p3 unix";
        "meakashi 5.5.3p1 win";
        "meakashi 5.5.3p1 unix" ]);
    ("tsumihoroboshi",
      [ "tsumihoroboshi 5.5.3p3 win";
        "tsumihoroboshi 5.5.3p3 unix" ]);
    ("minagoroshi",
      [ "minagoroshi 5.6.7f1 win";
        "minagoroshi 5.6.7f1 unix" ]);
    ("matsuribayashi",
      [ "matsuribayashi 2017.2.5 unix";
        "matsuribayashi 2017.2.5 unix 51100D6D";
        "matsuribayashi 2017.2.5 win" ]);
    ("rei",
      [ "rei 2019.4.3 win";
        "rei 2019.4.3 unix" ]) ].

(** [get_build_variants], over an arbitrary catalog.  The [for] loop that
    extends [commands] is a left fold over [.values()]; [d[k]] on an absent
    key would raise [KeyError], which the [in] test before it rules out. *)
Definition get_build_variants_of
    (d : PyDict.dict (list string)) (selected_chapter : string)
  : result (list string) :=
  if String.eqb selected_chapter "all" then
    let commands :=
      fold_left (λ commands command, commands ++ command) (PyDict.values d) [] in
    Return commands
  else if PyDict.contains d selected_chapter then
    match PyDict.get d selected_chapter with
    | Some v => Return v
    | None => Raise KeyError
    end
  else
    Raise (Exception ("Unknown Chapter " +:+ selected_chapter +:+
                      " - please update the build.py script")).

Definition get_build_variants : string → result (list string) :=
  get_build_variants_of chapter_to_build_variants.

End Catalog.

(** ** Python strings *)

Module PyStr.

Definition ord (c : ascii) : N := N_of_ascii c.
Definition chr (n : N) : ascii := ascii_of_N n.

Definition between (lo hi n : N) : bool := (lo <=? n)%N && (n <=? hi)%N.

(** [c.isalnum()], which for code points below 256 is also the set [\w]
    matches apart from the underscore: ASCII digits and letters, the
    superscript digits and fractions, and the Latin-1 letters. *)
Definition isalnum (c : ascii) : bool :=
  let n := ord c in
  between 48 57 n || between 65 90 n || between 97 122 n
  || (n =? 170)%N || between 178 179 n || (n =? 181)%N
  || between 185 186 n || between 188 190 n
  || between 192 214 n || between 216 246 n || between 248 255 n.

(** One character of [s.lower()]: the ASCII and the Latin-1 capitals move
    up by 32, every other character below 256 stays. *)
Definition lower_char (c : ascii) : ascii :=
  let n := ord c in
  if between 65 90 n || between 192 214 n || between 216 222 n
  then chr (n + 32) else c.

Fixpoint lower (s : string) : string :=
  match s with
  | EmptyString => EmptyString
  | String c s' => String (lower_char c) (lower s')
  end.

(** The characters [s.strip()] removes. *)
Definition isspace (c : ascii) : bool :=
  let n := ord c in
  between 9 13 n || between 28 32 n || (n =? 133)%N || (n =? 160)%N.

Fixpoint lstrip (s : string) : string :=
  match s with
  | EmptyString => EmptyString
  | String c s' => if isspace c then lstrip s' else s
  end.

Fixpoint rstrip (s : string) : string :=
  match s with
  | EmptyString => EmptyString
  | String c s' =>
      match rstrip s' with
      | EmptyString => if isspace c then EmptyString else String c EmptyString
      | r => String c r
      end
  end.

Definition strip (s : string) : string := rstrip (lstrip s).

(** Splitting at every character of a class, as [s.split(sep)] with a
    one-character [sep] and [re.split] with a one-character class do: each
    separator ends a piece, so adjacent separators give empty pieces and
    the result is never empty. *)
Fixpoint split_on (sep : ascii → bool) (s : string) : list string :=
  match s with
  | EmptyString => [EmptyString]
  | String c s' =>
      if sep c then EmptyString :: split_on sep s'
      else match split_on sep s' with
           | piece :: pieces => String c piece :: pieces
           | [] => [String c EmptyString]
           end
  end.

(** [x in l] for a list of strings. *)
Definition list_contains (l : list string) (x : string) : bool :=
  existsb (String.eqb x) l.

(** What a split is, said without the algorithm: the text is the pieces
    with one separator between neighbours, every character between two
    pieces is a separator, and no piece holds one. *)
Fixpoint join (piece : string) (rest : list (ascii * string)) : string :=
  match rest with
  | [] => piece
  | (c, piece') :: rest' => piece +:+ String c (join piece' rest')
  end.

Fixpoint all_chars (P : ascii → bool) (s : string) : bool :=
  match s with
  | EmptyString => true
  | String c s' => P c && all_chars P s'
  end.

Definition splits_at (sep : ascii → bool) (s : string) (pieces : list string)
  : Prop :=
  ∃ piece rest,
    pieces = piece :: map snd rest ∧
    s = join piece rest ∧
    Forall (λ cp, sep cp.1 = true) rest ∧
    Forall (λ p, all_chars (λ c, negb (sep c)) p = true) pieces.

End PyStr.

(** ** Resolving the chapter from the CI reference *)

Module Tag.
Import PyStr.

(** The classes of the pattern: [\w] is an alphanumeric character or the
    underscore, [\W] is any other character, and [[\W_]] puts the
    underscore back among those. *)
Definition re_word (c : ascii) : bool := isalnum c || Ascii.eqb c "_".
Definition re_nonword (c : ascii) : bool := negb (re_word c).
Definition re_nonword_or_underscore (c : ascii) : bool :=
  re_nonword c || Ascii.eqb c "_".

(** [re.split("[\W_]", s)] *)
Definition re_split (s : string) : list string :=
  split_on re_nonword_or_underscore s.

(** [GIT_REF.split("/")[-1]] *)
Definition GIT_TAG (GIT_REF : option string) : option string :=
  match GIT_REF with
  | None => None
  | Some ref => Some (List.last (split_on (Ascii.eqb "/") ref) EmptyString)
  end.

(** The [for] loop over [.keys()] with its early [return]. *)
Fixpoint first_chapter_in (chapter_names tag_fragments : list string)
  : option string :=
  match chapter_names with
  | [] => None
  | chapter_name :: rest =>
      if list_contains tag_fragments (lower chapter_name)
      then Some chapter_name
      else first_chapter_in rest tag_fragments
  end.

(** [get_chapter_name_from_git_tag], with the two module globals it reads
    made explicit.  The fragments come from [GIT_REF], the whole reference. *)
Definition get_chapter_name_from_git_tag_of
    (d : PyDict.dict (list string)) (GIT_REF : option string)
  : result (option string) :=
  match GIT_TAG GIT_REF with
  | None =>
      Raise (Exception "'github_actions' was selected, but environment variable GIT_REF was not set - are you sure you're running this script from Github Actions?")
  | Some _ =>
      match GIT_REF with
      | None => Raise TypeError
      | Some ref =>
          let tag_fragments := map lower (re_split ref) in
          if list_contains tag_fragments "all" then Return (Some "all")
          else Return (first_chapter_in (PyDict.keys d) tag_fragments)
      end
  end.

Definition get_chapter_name_from_git_tag
  : option string → result (option string) :=
  get_chapter_name_from_git_tag_of Catalog.chapter_to_build_variants.

(** *** The contract of the resolver, in the words of its description *)

Definition same_ignoring_case (a b : string) : Prop := lower a = lower b.

(** Some piece of the reference is [name], case aside. *)
Definition occurs_in (pieces : list string) (name : string) : Prop :=
  ∃ p, In p pieces ∧ same_ignoring_case p name.

(** [c] is the first of [names], in their order, that occurs. *)
Definition first_occurring (names pieces : list string) (c : string) : Prop :=
  ∃ before after,
    names = before ++ c :: after ∧
    occurs_in pieces c ∧
    ∀ c', In c' before → ¬ occurs_in pieces c'.

(** The resolver's answer on [ref], when pieces are cut at the characters
    of the class [sep]: "all" if a piece is "all"; otherwise the first
    chapter name, in catalog order, that is a piece; otherwise [None]; and
    never an exception. *)
Definition resolves_with (sep : ascii → bool) (ref : string) : Prop :=
  ∃ pieces,
    splits_at sep ref pieces ∧
    let names := PyDict.keys Catalog.chapter_to_build_variants in
    let answer := get_chapter_name_from_git_tag (Some ref) in
    (occurs_in pieces "all" → answer = Return (Some "all")) ∧
    (¬ occurs_in pieces "all" →
       ∀ c, first_occurring names pieces c → answer = Return (Some c)) ∧
    (¬ occurs_in pieces "all" →
       (∀ c, In c names → ¬ occurs_in pieces c) → answer = Return None) ∧
    returns answer.

(** A character that is not alphanumeric. *)
Definition not_alnum (c : ascii) : bool := negb (isalnum c).

End Tag.

(** ** The json library, as far as the cache file needs it

    [json.dump] with its defaults ([ensure_ascii], separators [", "] and
    [": "]) on a dict of strings, and [json.load] on the documents of that
    shape: one flat object whose values are strings.  On any other text the
    decoder below answers [None]; Python raises [JSONDecodeError] on some of
    those and builds values outside the cache's data model on the others. *)

Module Json.
Import PyStr.

Definition dquote : ascii := "034"%char.
Definition backslash : ascii := "092"%char.

(** *** Encoder *)

Definition hex_digit (n : N) : ascii :=
  if (n <? 10)%N then chr (48 + n) else chr (87 + n).

(** ['\\u{0:04x}'.format(n)] for [n < 0x10000] *)
Definition u_escape (n : N) : string :=
  String backslash (String "u"
    (String (hex_digit ((n / 4096) mod 16))
    (String (hex_digit ((n / 256) mod 16))
    (String (hex_digit ((n / 16) mod 16))
    (String (hex_digit (n mod 16)) EmptyString))))).

Definition esc (c : ascii) : string := String backslash (String c EmptyString).

Definition ESCAPE_DCT (c : ascii) : option string :=
  match ord c with
  | 92%N => Some (esc backslash)
  | 34%N => Some (esc dquote)
  | 8%N => Some (esc "b")
  | 12%N => Some (esc "f")
  | 10%N => Some (esc "n")
  | 13%N => Some (esc "r")
  | 9%N => Some (esc "t")
  | n => if (n <? 32)%N then Some (u_escape n) else None
  end.

(** The characters [ESCAPE_ASCII] matches: backslash, double quote and
    everything outside [' '..'~']. *)
Definition ESCAPE_ASCII (c : ascii) : bool :=
  Ascii.eqb c backslash || Ascii.eqb c dquote || negb (between 32 126 (ord c)).

Definition replace (c : ascii) : string :=
  match ESCAPE_DCT c with
  | Some e => e
  | None => u_escape (ord c)
  end.

Fixpoint escape_sub (s : string) : string :=
  match s with
  | EmptyString => EmptyString
  | String c s' =>
      (if ESCAPE_ASCII c then replace c else String c EmptyString)
      +:+ escape_sub s'
  end.

Definition encode_basestring_ascii (s : string) : string :=
  String dquote (escape_sub s +:+ String dquote EmptyString).

(** The loop of [_iterencode_dict] over the items, [first] as in the
    source. *)
Fixpoint iterencode_items (first : bool) (items : list (string * string))
  : string :=
  match items with
  | [] => EmptyString
  | (key, value) :: rest =>
      (if first then EmptyString else ", ")
      +:+ encode_basestring_ascii key +:+ ": "
      +:+ encode_basestring_ascii value
      +:+ iterencode_items false rest
  end.

Definition dumps (d : PyDict.dict string) : string :=
  match d with
  | [] => "{}"
  | _ => "{" +:+ iterencode_items true d +:+ "}"
  end.

(** *** Decoder *)

Definition hex_value (c : ascii) : option N :=
  let n := ord c in
  if between 48 57 n then Some (n - 48)%N
  else if between 97 102 n then Some (n - 87)%N
  else if between 65 70 n then Some (n - 55)%N
  else None.

(** [_decode_uXXXX] on the four characters after [\u], followed by [chr];
    a code point from 256 on has no character in this model. *)
Definition decode_uXXXX (h1 h2 h3 h4 : ascii) : option ascii :=
  match hex_value h1, hex_value h2, hex_value h3, hex_value h4 with
  | Some a, Some b, Some c, Some d =>
      let uni := (((a * 16 + b) * 16 + c) * 16 + d)%N in
      if (uni <? 256)%N then Some (chr uni) else None
  | _, _, _, _ => None
  end.

Definition BACKSLASH (c : ascii) : option ascii :=
  match ord c with
  | 34%N => Some dquote
  | 92%N => Some backslash
  | 47%N => Some "/"%char
  | 98%N => Some (chr 8)
  | 102%N => Some (chr 12)
  | 110%N => Some (chr 10)
  | 114%N => Some (chr 13)
  | 116%N => Some (chr 9)
  | _ => None
  end.

Definition append_char (c : ascii) (r : option (string * string))
  : option (string * string) :=
  match r with
  | Some (content, rest) => Some (String c content, rest)
  | None => None
  end.

(** [scanstring] in strict mode, on the text after the opening quote:
    the decoded string and the text after the closing quote. *)
Fixpoint scanstring (s : string) : option (string * string) :=
  match s with
  | EmptyString => None
  | String c rest =>
      if Ascii.eqb c dquote then Some (EmptyString, rest)
      else if Ascii.eqb c backslash then
        match rest with
        | EmptyString => None
        | String e rest1 =>
            if Ascii.eqb e "u" then
              match rest1 with
              | String h1 (String h2 (String h3 (String h4 rest2))) =>
                  match decode_uXXXX h1 h2 h3 h4 with
                  | Some ch => append_char ch (scanstring rest2)
                  | None => None
                  end
              | _ => None
              end
            else
              match BACKSLASH e with
              | Some ch => append_char ch (scanstring rest1)
              | None => None
              end
        end
      else if (ord c <? 32)%N then None
      else append_char c (scanstring rest)
  end.

(** [WHITESPACE.match(s, end).end()]: past the run of blanks. *)
Definition is_ws (c : ascii) : bool :=
  Ascii.eqb c " " || (ord c =? 9)%N || (ord c =? 10)%N || (ord c =? 13)%N.

Fixpoint skip_ws (s : string) : string :=
  match s with
  | EmptyString => EmptyString
  | String c s' => if is_ws c then skip_ws s' else s
  end.

(** A value of the object, which in this model has to be a string. *)
Definition scan_once (s : string) : option (string * string) :=
  match s with
  | String c rest => if Ascii.eqb c dquote then scanstring rest else None
  | EmptyString => None
  end.

(** The [while True] loop of [JSONObject], entered after the opening quote
    of a key; each round reads at least one character, so [fuel] bounds the
    rounds by the length of the text. *)
Fixpoint JSONObject_loop (fuel : nat) (pairs : list (string * string))
    (s : string) : option (list (string * string) * string) :=
  match fuel with
  | O => None
  | S fuel' =>
      match scanstring s with
      | None => None
      | Some (key, s1) =>
          match skip_ws s1 with
          | String ":" s2 =>
              match scan_once (skip_ws s2) with
              | None => None
              | Some (value, s3) =>
                  let pairs := pairs ++ [(key, value)] in
                  match skip_ws s3 with
                  | String "}" s4 => Some (pairs, s4)
                  | String "," s4 =>
                      match skip_ws s4 with
                      | String c s5 =>
                          if Ascii.eqb c dquote
                          then JSONObject_loop fuel' pairs s5
                          else None
                      | EmptyString => None
                      end
                  | _ => None
                  end
              end
          | _ => None
          end
      end
  end.

(** [JSONObject] on the text after the opening brace. *)
Definition JSONObject (s : string) : option (PyDict.dict string * string) :=
  match skip_ws s with
  | String "}" rest => Some ([], rest)
  | String c rest =>
      if Ascii.eqb c dquote then
        match JSONObject_loop (String.length rest) [] rest with
        | Some (pairs, rest') => Some (PyDict.of_pairs pairs, rest')
        | None => None
        end
      else None
  | EmptyString => None
  end.

(** [JSONDecoder.decode]: blanks, one object, blanks, end of text. *)
Definition loads (s : string) : option (PyDict.dict string) :=
  match skip_ws s with
  | String "{" rest =>
      match JSONObject rest with
      | Some (obj, rest') =>
          match skip_ws rest' with
          | EmptyString => Some obj
          | _ => None
          end
      | None => None
      end
  | _ => None
  end.

End Json.

(** ** LastModifiedManager *)

Module Cache.

(** What a request to a url meets: [urlopen] raises, or a response comes
    back whose [Last-Modified] header is there or not. *)
Inductive response : Type :=
  | Unreachable
  | Response (last_modified : option string).

Definition remote := string → response.

(** The state the methods act on: the manager's dict and the files on
    disk, by path. *)
Record world : Type := World {
  lastModifiedDict : PyDict.dict string;
  files : gmap string string
}.

Definition savePath : string := "lastModified.json".

(** Methods run in a state-and-exception monad over [world]; a raise
    leaves the world as it is at that point.  What the methods print is
    left out. *)
Definition M (A : Type) : Type := world → result A * world.

Definition ret {A} (a : A) : M A := λ w, (Return a, w).
Definition raise {A} (e : exn) : M A := λ w, (Raise e, w).
Definition bind {A B} (m : M A) (k : A → M B) : M B :=
  λ w, match m w with
       | (Return a, w') => k a w'
       | (Raise e, w') => (Raise e, w')
       end.
Definition lift {A} (r : result A) : M A := λ w, (r, w).

#[global] Instance M_ret : MRet M := @ret.
#[global] Instance M_bind : MBind M := λ A B k m, bind m k.

Definition get_dict : M (PyDict.dict string) := λ w, (Return (lastModifiedDict w), w).
Definition put_dict (d : PyDict.dict string) : M unit :=
  λ w, (Return tt, World d (files w)).
Definition get_files : M (gmap string string) := λ w, (Return (files w), w).
Definition put_files (fs : gmap string string) : M unit :=
  λ w, (Return tt, World (lastModifiedDict w) fs).

(** [__init__] *)
Definition init : M unit :=
  put_dict [];;
  fs ← get_files;
  match fs !! savePath with
  | None => ret tt
  | Some text =>
      match Json.loads text with
      | Some d => put_dict d
      | None => raise JSONDecodeError
      end
  end.

(** [getRemoteLastModified]: [getheader] gives [None] for a missing header,
    and [None.strip()] raises. *)
Definition getRemoteLastModified (net : remote) (url : string) : result string :=
  match net url with
  | Unreachable => Raise URLError
  | Response None => Raise AttributeError
  | Response (Some header) => Return (PyStr.strip header)
  end.

(** [localLastModified is not None and localLastModified == remoteLastModified] *)
Definition same_date (localLastModified : option string)
    (remoteLastModified : string) : bool :=
  match localLastModified with
  | None => false
  | Some l => String.eqb l remoteLastModified
  end.

Definition isRemoteModifiedAndUpdateMemory (net : remote) (url : string) : M bool :=
  remoteLastModified ← lift (getRemoteLastModified net url);
  d ← get_dict;
  let localLastModified := PyDict.get d url in
  if same_date localLastModified remoteLastModified then ret false
  else
    put_dict (PyDict.setitem d url remoteLastModified);;
    ret true.

(** [save]: the file is opened for writing, which replaces its content. *)
Definition save : M unit :=
  d ← get_dict;
  fs ← get_files;
  put_files (<[savePath := Json.dumps d]> fs).

End Cache.

(** ** The script around the two components *)

Module Script.
Import PyStr.

(** *** Choosing what to build *)

(** The [choices] of the [chapter] argument. *)
Definition chapter_choices_of (d : PyDict.dict (list string)) : list string :=
  ["all"; "github_actions"] ++ PyDict.keys d.

(** How the selection ends when nothing is raised: [exit(0)] after the
    warning, or a chapter name with the variants to build. *)
Inductive selection : Type :=
  | Skip
  | Build (chapter_name : string) (build_variants : list string).

(** From [chapter_name = args.chapter] to [build_variants]. *)
Definition select_of (d : PyDict.dict (list string))
    (chapter : string) (GIT_REF : option string) : result selection :=
  let build chapter_name :=
    match Catalog.get_build_variants_of d chapter_name with
    | Raise e => Raise e
    | Return build_variants => Return (Build chapter_name build_variants)
    end in
  if String.eqb chapter "github_actions" then
    match Tag.get_chapter_name_from_git_tag_of d GIT_REF with
    | Raise e => Raise e
    | Return None => Return Skip
    | Return (Some chapter_name) => build chapter_name
    end
  else build chapter.

Definition chapter_choices : list string :=
  chapter_choices_of Catalog.chapter_to_build_variants.

Definition select : string → option string → result selection :=
  select_of Catalog.chapter_to_build_variants.

(** The characters from the space to the tilde. *)
Definition printable_ascii (c : ascii) : bool := between 32 126 (ord c).

(** *** Running commands *)

(** What [subprocess] is given: a command line or an argument list. *)
Inductive args : Type :=
  | Line (command : string)
  | Argv (argv : list string).

(** What becomes of a command: it runs and exits with a code, or it cannot
    be started ([subprocess] then raises an [OSError]). *)
Inductive launched : Type :=
  | Exited (retcode : Z)
  | NotStarted.

(** The machine the script runs on: the fate of a command, given the
    commands attempted before it.  The platform, and with it the [shell]
    flag of [call], is part of the machine. *)
Definition system := list args → args → launched.

Inductive error : Type :=
  | Py (e : exn)
  | OSError.

Inductive outcome (A : Type) : Type :=
  | Failed (e : error)
  | Done (a : A).
Arguments Failed {A} e.
Arguments Done {A} a.

(** State and exceptions, over any state. *)
Definition SM (S A : Type) : Type := S → outcome A * S.

Definition sm_ret {S A} (a : A) : SM S A := λ s, (Done a, s).
Definition sm_raise {S A} (e : error) : SM S A := λ s, (Failed e, s).
Definition sm_bind {S A B} (m : SM S A) (k : A → SM S B) : SM S B :=
  λ s, match m s with
       | (Done a, s') => k a s'
       | (Failed e, s') => (Failed e, s')
       end.

#[global] Instance SM_ret S : MRet (SM S) := @sm_ret S.
#[global] Instance SM_bind S : MBind (SM S) := λ A B k m, sm_bind m k.

(** [repr] of a string: single quotes unless the string has one and no
    double quote; the quote in use and the backslash are escaped, tab,
    newline and return have their letters, and the other characters that
    are not printable are written [\xNN]. *)
Definition isprintable (c : ascii) : bool :=
  let n := ord c in
  between 32 126 n || between 161 172 n || between 174 255 n.

Definition repr_char (quote c : ascii) : string :=
  if Ascii.eqb c quote || Ascii.eqb c Json.backslash then Json.esc c
  else if (ord c =? 9)%N then Json.esc "t"
  else if (ord c =? 10)%N then Json.esc "n"
  else if (ord c =? 13)%N then Json.esc "r"
  else if isprintable c then String c EmptyString
  else String Json.backslash (String "x"
         (String (Json.hex_digit (ord c / 16))
         (String (Json.hex_digit (ord c mod 16)) EmptyString))).

Fixpoint has_char (c : ascii) (s : string) : bool :=
  match s with
  | EmptyString => false
  | String c' s' => Ascii.eqb c' c || has_char c s'
  end.

Fixpoint repr_chars (quote : ascii) (s : string) : string :=
  match s with
  | EmptyString => EmptyString
  | String c s' => repr_char quote c +:+ repr_chars quote s'
  end.

Definition repr (s : string) : string :=
  let quote :=
    if has_char "'" s && negb (has_char Json.dquote s) then Json.dquote
    else "'"%char in
  String quote (repr_chars quote s +:+ String quote EmptyString).

(** [str(args)], as the f-string of [call] formats it. *)
Definition str_args (a : args) : string :=
  match a with
  | Line command => command
  | Argv argv => "[" +:+ String.concat ", " (map repr argv) +:+ "]"
  end.

(** [subprocess.call]: the command joins those attempted, and its exit
    code comes back. *)
Definition subprocess_call (sys : system) (a : args) : SM (list args) Z :=
  λ invoked,
    match sys invoked a with
    | Exited retcode => (Done retcode, invoked ++ [a])
    | NotStarted => (Failed OSError, invoked ++ [a])
    end.

Definition call (sys : system) (a : args) : SM (list args) unit :=
  retcode ← subprocess_call sys a;
  if (retcode =? 0)%Z then mret tt
  else sm_raise (Py (Exception ("ERROR: " +:+ str_args a +:+
                                " exited with retcode: " +:+ pretty retcode))).

Definition download (sys : system) (url : string) : SM (list args) unit :=
  call sys (Argv ["curl"; "-OJLf"; url]).

(** [outputDir] is [None] by default; [if outputDir] is false for [None]
    and for the empty string. *)
Definition seven_zip_extract (sys : system) (input_path : string)
    (outputDir : option string) : SM (list args) unit :=
  let args := ["7z"; "x"; input_path; "-y"] in
  let args :=
    match outputDir with
    | Some dir => if String.eqb dir EmptyString then args
                  else args ++ ["-o" +:+ dir]
    | None => args
    end in
  call sys (Argv args).

(** *** Building the variants *)

(** [subprocess.check_output("cargo -v")] under [try]/[except]: anything
    but a clean exit lands in the bare [except]. *)
Definition probe_cargo (sys : system) : SM (list args) bool :=
  λ invoked,
    (Done match sys invoked (Line "cargo -v") with
          | Exited 0 => true
          | _ => false
          end,
     invoked ++ [Line "cargo -v"]).

Definition build_command (working_cargo : bool) (command : string) : args :=
  Line ((if working_cargo then "cargo run " else "ui-compiler.exe ") +:+ command).

(** The final [for] loop. *)
Fixpoint build_all (sys : system) (working_cargo : bool)
    (build_variants : list string) : SM (list args) unit :=
  match build_variants with
  | [] => mret tt
  | command :: rest =>
      call sys (build_command working_cargo command);;
      build_all sys working_cargo rest
  end.

Definition ui_compiler_url : string :=
  "https://github.com/07th-mod/ui-editing-scripts/releases/latest/download/ui-compiler.exe".

(** From the probe for cargo to the end of the script. *)
Definition build_stage (sys : system) (build_variants : list string)
  : SM (list args) unit :=
  working_cargo ← probe_cargo sys;
  (if working_cargo then mret tt else download sys ui_compiler_url);;
  build_all sys working_cargo build_variants.

(** The commands the stage goes through after the probe: the download of
    the compiler when cargo was not found, then one build per variant. *)
Definition cargo_found (sys : system) (invoked : list args) : bool :=
  match sys invoked (Line "cargo -v") with
  | Exited 0 => true
  | _ => false
  end.

Definition planned_commands (working_cargo : bool)
    (build_variants : list string) : list args :=
  (if working_cargo then [] else [Argv ["curl"; "-OJLf"; ui_compiler_url]])
  ++ map (build_command working_cargo) build_variants.

(** [call] on each command of a list, in order. *)
Fixpoint call_each (sys : system) (commands : list args) : SM (list args) unit :=
  match commands with
  | [] => mret tt
  | a :: rest => call sys a;; call_each sys rest
  end.

(** What [call] raises for a command that did not exit with 0. *)
Definition call_error (a : args) (fate : launched) : error :=
  match fate with
  | Exited retcode =>
      Py (Exception ("ERROR: " +:+ str_args a +:+
                     " exited with retcode: " +:+ pretty retcode))
  | NotStarted => OSError
  end.

(** The commands of a list all exit with 0 when run one after the other. *)
Fixpoint all_exit_zero (sys : system) (invoked commands : list args) : Prop :=
  match commands with
  | [] => True
  | a :: rest =>
      sys invoked a = Exited 0 ∧ all_exit_zero sys (invoked ++ [a]) rest
  end.

(** *** Refreshing a downloaded asset *)

(** The two download steps of the script (vanilla assets, UABE) are the same
    code on different names.  What lies between the test and [save] (the
    old archive and folder removed, [download], [seven_zip_extract], the
    archive removed) runs outside the manager: it acts on the files, and
    returns or raises. *)
Definition fetcher := gmap string string → outcome unit * gmap string string.

Definition lift_cache {A} (m : Cache.M A) : SM Cache.world A :=
  λ w, match m w with
       | (Return a, w') => (Done a, w')
       | (Raise e, w') => (Failed (Py e), w')
       end.

Definition run_fetcher (fetch : fetcher) : SM Cache.world unit :=
  λ w, let (r, fs) := fetch (Cache.files w) in
       (r, Cache.World (Cache.lastModifiedDict w) fs).

(** One step; [fully_extracted] is computed before it, from
    [os.path.exists] of the folder and of the archive. *)
Definition refresh (net : Cache.remote) (url : string)
    (force_download fully_extracted : bool) (fetch : fetcher)
  : SM Cache.world unit :=
  modified ← lift_cache (Cache.isRemoteModifiedAndUpdateMemory net url);
  if modified || force_download || negb fully_extracted then
    run_fetcher fetch;;
    lift_cache Cache.save
  else mret tt.

End Script.

(** * Properties *)

(** ** Dicts *)

Section dict_facts.
Context {V : Type}.
Implicit Types (d : PyDict.dict V) (k : string) (v : V).

Lemma get_In d k v : PyDict.get d k = Some v → In (k, v) d.
Proof.
  induction d as [|[k' v'] d IH]; simpl; [done|].
  destruct (String.eqb_spec k k') as [->|Hne].
  - intros [= ->]. by left.
  - intros H. right. by apply IH.
Qed.

Lemma get_None d k : PyDict.get d k = None ↔ ¬ In k (PyDict.keys d).
Proof.
  induction d as [|[k' v'] d IH]; simpl; [tauto|].
  destruct (String.eqb_spec k k') as [->|Hne].
  - split; [done|]. intros H. destruct H. by left.
  - rewrite IH. split.
    + intros H [Heq|Hin]; [by subst|tauto].
    + tauto.
Qed.

Lemma In_get d k v : PyDict.wf d → In (k, v) d → PyDict.get d k = Some v.
Proof.
  unfold PyDict.wf.
  induction d as [|[k' v'] d IH]; simpl; [done|].
  intros [Hk' Hd]%NoDup_cons [[= -> ->]|Hin].
  - by rewrite String.eqb_refl.
  - destruct (String.eqb_spec k k') as [->|Hne]; [|by apply IH].
    destruct Hk'. apply list_elem_of_In.
    change k' with (fst (k', v)). by apply in_map.
Qed.

Lemma contains_In d k : PyDict.contains d k = true ↔ In k (PyDict.keys d).
Proof.
  unfold PyDict.contains.
  destruct (PyDict.get d k) as [v|] eqn:Hget.
  - split; [|done]. intros _. apply get_In in Hget.
    change k with (fst (k, v)). by apply in_map.
  - apply get_None in Hget. split; [done|tauto].
Qed.

Lemma get_setitem_eq d k v : PyDict.get (PyDict.setitem d k v) k = Some v.
Proof.
  induction d as [|[k' v'] d IH]; simpl.
  - by rewrite String.eqb_refl.
  - destruct (String.eqb_spec k k') as [->|Hne]; simpl.
    + by rewrite String.eqb_refl.
    + by apply String.eqb_neq in Hne as ->.
Qed.

Lemma get_setitem_ne d k k' v :
  k ≠ k' → PyDict.get (PyDict.setitem d k v) k' = PyDict.get d k'.
Proof.
  intros Hne. induction d as [|[k0 v0] d IH]; simpl.
  - assert (k' ≠ k) as ->%String.eqb_neq by congruence. done.
  - destruct (String.eqb_spec k k0) as [->|Hne0]; simpl.
    + assert (k' ≠ k0) as ->%String.eqb_neq by congruence. done.
    + by rewrite IH.
Qed.

Lemma setitem_fresh d k v :
  ¬ In k (PyDict.keys d) → PyDict.setitem d k v = d ++ [(k, v)].
Proof.
  induction d as [|[k' v'] d IH]; simpl; [done|].
  intros Hnin. destruct (String.eqb_spec k k') as [->|Hne]; [tauto|].
  rewrite IH; [done|tauto].
Qed.

Lemma keys_setitem d k v :
  PyDict.keys (PyDict.setitem d k v) =
  if PyDict.contains d k then PyDict.keys d else PyDict.keys d ++ [k].
Proof.
  unfold PyDict.contains.
  induction d as [|[k' v'] d IH]; simpl; [done|].
  destruct (String.eqb_spec k k') as [->|Hne]; simpl; [done|].
  rewrite IH. by destruct (PyDict.get d k).
Qed.

Lemma wf_setitem d k v : PyDict.wf d → PyDict.wf (PyDict.setitem d k v).
Proof.
  unfold PyDict.wf. intros Hd. rewrite keys_setitem.
  destruct (PyDict.contains d k) eqn:Hc; [done|].
  apply NoDup_app. split_and!; [done| |apply NoDup_singleton].
  intros x Hx ->%list_elem_of_singleton.
  apply list_elem_of_In, contains_In in Hx. congruence.
Qed.

Lemma fold_setitem_fresh (pairs acc : list (string * V)) :
  PyDict.wf (acc ++ pairs) →
  fold_left (λ d kv, PyDict.setitem d kv.1 kv.2) pairs acc = acc ++ pairs.
Proof.
  revert acc. induction pairs as [|[k v] pairs IH]; intros acc Hwf; simpl.
  - by rewrite app_nil_r.
  - assert (acc ++ (k, v) :: pairs = (acc ++ [(k, v)]) ++ pairs) as Heq
      by (by rewrite <-app_assoc).
    rewrite setitem_fresh.
    + rewrite IH; [done|]. by rewrite <-Heq.
    + unfold PyDict.wf, PyDict.keys in Hwf.
      rewrite map_app in Hwf. simpl in Hwf.
      apply NoDup_app in Hwf as (_ & Hdisj & _).
      intros Hin%list_elem_of_In. apply (Hdisj k Hin). by left.
Qed.

(** The pairs of a well-formed dict give the dict back. *)
Lemma of_pairs_items d : PyDict.wf d → PyDict.of_pairs d = d.
Proof. intros Hwf. by apply (fold_setitem_fresh d []). Qed.

Lemma wf_of_pairs (pairs : list (string * V)) : PyDict.wf (PyDict.of_pairs pairs).
Proof.
  unfold PyDict.of_pairs.
  assert (PyDict.wf (@nil (string * V))) as Hnil by apply NoDup_nil_2.
  revert Hnil. generalize (@nil (string * V)).
  induction pairs as [|[k v] pairs IH]; intros acc Hacc; simpl; [done|].
  apply IH. by apply wf_setitem.
Qed.
End dict_facts.

(** ** The variant catalog *)

Section catalog_facts.
Import Catalog.
Implicit Types (d : PyDict.dict (list string)).

(** Extending an accumulator list by list is concatenation. *)
Lemma fold_extend (ls : list (list string)) (acc : list string) :
  fold_left (λ commands command, commands ++ command) ls acc = acc ++ concat ls.
Proof.
  revert acc. induction ls as [|l ls IH]; intros acc; simpl.
  - by rewrite app_nil_r.
  - by rewrite IH, app_assoc.
Qed.

Lemma length_concat_sum (ls : list (list string)) :
  length (concat ls) = list_sum (map length ls).
Proof.
  induction ls as [|l ls IH]; simpl; [done|].
  by rewrite length_app, IH.
Qed.

Lemma get_build_variants_of_all d :
  get_build_variants_of d "all" = Return (concat (PyDict.values d)).
Proof. unfold get_build_variants_of. simpl. by rewrite fold_extend. Qed.

Lemma get_build_variants_of_chapter d c vs :
  PyDict.wf d → c ≠ "all" → In (c, vs) d →
  get_build_variants_of d c = Return vs.
Proof.
  intros Hwf Hall Hin. unfold get_build_variants_of.
  apply String.eqb_neq in Hall as ->.
  assert (PyDict.get d c = Some vs) as Hget by by apply In_get.
  unfold PyDict.contains. by rewrite Hget.
Qed.

Lemma get_build_variants_of_unknown d x :
  x ≠ "all" → ¬ In x (PyDict.keys d) →
  get_build_variants_of d x =
    Raise (Exception ("Unknown Chapter " +:+ x +:+
                      " - please update the build.py script")).
Proof.
  intros Hall Hnin. unfold get_build_variants_of.
  apply String.eqb_neq in Hall as ->.
  destruct (PyDict.contains d x) eqn:Hc; [|done].
  by apply contains_In in Hc.
Qed.

(** The catalog of the script is a proper dict, has no chapter called
    "all", and no chapter with an empty list. *)
Lemma catalog_wf : PyDict.wf chapter_to_build_variants.
Proof. unfold PyDict.wf. apply (bool_decide_unpack _). by vm_compute. Qed.

Lemma catalog_no_all : ¬ In "all" (PyDict.keys chapter_to_build_variants).
Proof. simpl. intros H. repeat destruct H as [H|H]; done. Qed.

Lemma catalog_nonempty :
  Forall (λ vs, vs ≠ []) (PyDict.values chapter_to_build_variants).
Proof. repeat constructor; done. Qed.
End catalog_facts.

(** C6: [get_build_variants "all"] returns the concatenation, in catalog
    order, of every chapter's variant list, and its length is the sum of the
    lengths of those lists. *)
Theorem get_build_variants_all :
  ∃ commands,
    Catalog.get_build_variants "all" = Return commands ∧
    commands = concat (PyDict.values Catalog.chapter_to_build_variants) ∧
    length commands =
      list_sum (map length (PyDict.values Catalog.chapter_to_build_variants)).
Proof.
  exists (concat (PyDict.values Catalog.chapter_to_build_variants)).
  split_and!; [apply get_build_variants_of_all|done|apply length_concat_sum].
Qed.

Example get_build_variants_all_length :
  ∃ commands,
    Catalog.get_build_variants "all" = Return commands ∧ length commands = 24.
Proof. by eexists. Qed.

(** C7: for a chapter [c] declared in the catalog with the list [vs],
    [get_build_variants c] returns [vs] itself, element for element in the
    declared order, and [vs] is not empty. *)
Theorem get_build_variants_chapter (c : string) (vs : list string) :
  In (c, vs) Catalog.chapter_to_build_variants →
  Catalog.get_build_variants c = Return vs ∧ vs ≠ [].
Proof.
  intros Hin. split.
  - apply get_build_variants_of_chapter; [apply catalog_wf| |done].
    intros ->. apply catalog_no_all.
    change "all" with (fst ("all", vs)). by apply in_map.
  - pose proof catalog_nonempty as Hne.
    rewrite List.Forall_forall in Hne. apply Hne.
    change vs with (snd (c, vs)). by apply in_map.
Qed.

Lemma get_build_variants_chapter_witness :
  In ("meakashi", [ "meakashi 5.5.3p3 win"; "meakashi 5.5.3p3 unix";
                    "meakashi 5.5.3p1 win"; "meakashi 5.5.3p1 unix" ])
     Catalog.chapter_to_build_variants ∧
  Catalog.get_build_variants "meakashi" =
    Return [ "meakashi 5.5.3p3 win"; "meakashi 5.5.3p3 unix";
             "meakashi 5.5.3p1 win"; "meakashi 5.5.3p1 unix" ].
Proof.
  assert (In ("meakashi", [ "meakashi 5.5.3p3 win"; "meakashi 5.5.3p3 unix";
                            "meakashi 5.5.3p1 win"; "meakashi 5.5.3p1 unix" ])
             Catalog.chapter_to_build_variants) as Hin
    by (simpl; tauto).
  split; [exact Hin|].
  exact (proj1 (get_build_variants_chapter _ _ Hin)).
Defined.

(** C8: for a string [x] that is not "all" and not a chapter name of the
    catalog, [get_build_variants x] raises the script's "Unknown Chapter"
    exception and returns no list. *)
Theorem get_build_variants_unknown (x : string) :
  x ≠ "all" →
  ¬ In x (PyDict.keys Catalog.chapter_to_build_variants) →
  Catalog.get_build_variants x =
    Raise (Exception ("Unknown Chapter " +:+ x +:+
                      " - please update the build.py script")) ∧
  ¬ returns (Catalog.get_build_variants x).
Proof.
  intros Hall Hnin.
  pose proof (get_build_variants_of_unknown
                Catalog.chapter_to_build_variants x Hall Hnin) as H.
  split; [exact H|].
  unfold Catalog.get_build_variants. rewrite H. by intros [a Ha].
Qed.

Lemma get_build_variants_unknown_witness :
  Catalog.get_build_variants "higurashi" =
    Raise (Exception "Unknown Chapter higurashi - please update the build.py script").
Proof.
  refine (proj1 (get_build_variants_unknown "higurashi" _ _)).
  - done.
  - simpl. intros H. repeat destruct H as [H|H]; done.
Defined.

(** ** Splitting and the resolver *)

Section split_facts.
Import PyStr.
Variable sep : ascii → bool.

Lemma join_cons c piece rest :
  join (String c piece) rest = String c (join piece rest).
Proof. by destruct rest as [|[c' p'] rest]. Qed.

Lemma split_on_join piece rest :
  all_chars (λ c, negb (sep c)) piece = true →
  Forall (λ cp, sep cp.1 = true) rest →
  Forall (λ p, all_chars (λ c, negb (sep c)) p = true) (map snd rest) →
  split_on sep (join piece rest) = piece :: map snd rest.
Proof.
  intros Hpiece Hseps Hrest. revert piece Hpiece.
  induction Hseps as [|[c p] rest Hc Hseps IH]; intros piece Hpiece.
  - simpl. induction piece as [|a piece IHp]; [done|].
    simpl in *. apply andb_prop in Hpiece as [Ha Hp].
    apply negb_true_iff in Ha as ->. by rewrite IHp.
  - apply Forall_cons in Hrest as [Hp Hrest].
    specialize (IH Hrest p Hp).
    induction piece as [|a piece IHp].
    + simpl in *. by rewrite Hc, IH.
    + rewrite join_cons. simpl in Hpiece. cbn [split_on].
      apply andb_prop in Hpiece as [Ha Hpiece].
      apply negb_true_iff in Ha as ->. by rewrite (IHp Hpiece).
Qed.

(** [split_on] cuts [s] at its separators ... *)
Lemma split_on_splits s : splits_at sep s (split_on sep s).
Proof.
  induction s as [|c s (piece & rest & Hsplit & Hjoin & Hseps & Hpieces)].
  - exists EmptyString, []. split_and!; [done|done|constructor|by repeat constructor].
  - simpl. destruct (sep c) eqn:Hc.
    + exists EmptyString, ((c, piece) :: rest). rewrite Hsplit in *.
      split_and!; [done|by simpl; rewrite <-Hjoin|by constructor|by constructor].
    + rewrite Hsplit in *. exists (String c piece), rest.
      split_and!; [done|by rewrite join_cons, <-Hjoin|done|].
      apply Forall_cons in Hpieces as [Hp Hpieces].
      constructor; [|done]. simpl. by rewrite Hc.
Qed.

Lemma split_on_nonempty s : split_on sep s ≠ [].
Proof.
  destruct s as [|c s]; simpl; [done|].
  destruct (sep c); [done|]. by destruct (split_on sep s).
Qed.

(** Cutting at a separator cuts the split in two. *)
Lemma split_on_app a c b :
  sep c = true →
  split_on sep (a +:+ String c b) = split_on sep a ++ split_on sep b.
Proof.
  intros Hc. induction a as [|x a IH].
  - change (EmptyString +:+ String c b) with (String c b). simpl. by rewrite Hc.
  - change (String x a +:+ String c b) with (String x (a +:+ String c b)).
    simpl. rewrite IH. destruct (sep x); [done|].
    pose proof (split_on_nonempty a) as Hne.
    by destruct (split_on sep a).
Qed.

(** ... and is the only way to do so. *)
Lemma splits_at_unique s pieces :
  splits_at sep s pieces → pieces = split_on sep s.
Proof.
  intros (piece & rest & -> & -> & Hseps & [Hp Hrest]%Forall_cons).
  symmetry. by apply split_on_join.
Qed.
End split_facts.

Lemma split_on_ext (sep sep' : ascii → bool) s :
  (∀ c, sep c = sep' c) → PyStr.split_on sep s = PyStr.split_on sep' s.
Proof.
  intros Hext. induction s as [|c s IH]; simpl; [done|].
  by rewrite Hext, IH.
Qed.

Section resolver_facts.
Import PyStr Tag.

(** The class [[\W_]] is the characters that are not alphanumeric. *)
Lemma re_nonword_or_underscore_not_alnum c :
  re_nonword_or_underscore c = not_alnum c.
Proof. destruct c as [[] [] [] [] [] [] [] []]; reflexivity. Qed.

Lemma list_contains_In l x : list_contains l x = true ↔ In x l.
Proof.
  unfold list_contains. rewrite existsb_exists. split.
  - by intros (y & Hin & ->%String.eqb_eq).
  - intros Hin. exists x. by rewrite String.eqb_refl.
Qed.

Lemma occurs_in_fragments pieces name :
  occurs_in pieces name ↔ In (lower name) (map lower pieces).
Proof.
  unfold occurs_in, same_ignoring_case. rewrite in_map_iff. split.
  - intros (p & Hin & Heq). by exists p.
  - intros (p & Heq & Hin). by exists p.
Qed.

Lemma first_chapter_in_None names fragments :
  first_chapter_in names fragments = None ↔
  ∀ c, In c names → ¬ In (lower c) fragments.
Proof.
  induction names as [|n names IH]; simpl.
  - split; [by intros _ c []|done].
  - destruct (list_contains fragments (lower n)) eqn:Hc.
    + apply list_contains_In in Hc. split; [done|].
      intros H. destruct (H n); [by left|done].
    + assert (¬ In (lower n) fragments) as Hn
        by (rewrite <-list_contains_In; congruence).
      rewrite IH. split.
      * intros H c [<-|Hin]; [done|by apply H].
      * intros H c Hin. apply H. by right.
Qed.

Lemma first_chapter_in_first before c after fragments :
  In (lower c) fragments →
  (∀ c', In c' before → ¬ In (lower c') fragments) →
  first_chapter_in (before ++ c :: after) fragments = Some c.
Proof.
  intros Hc Hbefore. induction before as [|b before IH]; simpl.
  - by apply list_contains_In in Hc as ->.
  - assert (list_contains fragments (lower b) = false) as ->.
    { apply not_true_iff_false. rewrite list_contains_In.
      apply Hbefore. by left. }
    apply IH. intros c' Hc'. apply Hbefore. by right.
Qed.

(** The resolver against its contract, for the class the code cuts at. *)
Lemma resolves_with_split (d : PyDict.dict (list string)) ref :
  let pieces := re_split ref in
  let answer := get_chapter_name_from_git_tag_of d (Some ref) in
  (occurs_in pieces "all" → answer = Return (Some "all")) ∧
  (¬ occurs_in pieces "all" →
     ∀ c, first_occurring (PyDict.keys d) pieces c → answer = Return (Some c)) ∧
  (¬ occurs_in pieces "all" →
     (∀ c, In c (PyDict.keys d) → ¬ occurs_in pieces c) → answer = Return None) ∧
  returns answer.
Proof.
  intros pieces answer. subst answer.
  unfold get_chapter_name_from_git_tag_of. simpl. fold pieces.
  destruct (list_contains (map lower pieces) "all") eqn:Hall.
  - apply list_contains_In in Hall.
    assert (occurs_in pieces "all") by by apply occurs_in_fragments.
    split_and!; [done|done|done|by eexists].
  - assert (¬ occurs_in pieces "all") as Hno.
    { rewrite occurs_in_fragments, <-list_contains_In.
      change (lower "all") with "all". congruence. }
    split_and!; [done| | |by eexists].
    + intros _ c (before & after & -> & Hc & Hbefore). f_equal.
      apply first_chapter_in_first; [by apply occurs_in_fragments|].
      intros c' Hc'. rewrite <-occurs_in_fragments. by apply Hbefore.
    + intros _ Hnone. f_equal. apply first_chapter_in_None.
      intros c Hc. rewrite <-occurs_in_fragments. by apply Hnone.
Qed.
Lemma list_contains_app l1 l2 x :
  list_contains (l1 ++ l2) x = list_contains l1 x || list_contains l2 x.
Proof. apply existsb_app. Qed.

Lemma first_chapter_in_app names l1 l2 :
  (∀ n, In n names → list_contains l1 (lower n) = false) →
  first_chapter_in names (l1 ++ l2) = first_chapter_in names l2.
Proof.
  induction names as [|n names IH]; intros Hskip; simpl; [done|].
  rewrite list_contains_app, (Hskip n) by (by left). simpl.
  rewrite IH; [done|]. intros n' Hn'. apply Hskip. by right.
Qed.

(** The path in front of the last [/] of the reference does not matter as
    long as none of its fragments is "all" or a chapter name: the answer is
    then the one for the tag alone. *)
Lemma resolve_ignores_path (d : PyDict.dict (list string)) path tag :
  let skipped := map lower (re_split path) in
  list_contains skipped "all" = false →
  (∀ n, In n (PyDict.keys d) → list_contains skipped (lower n) = false) →
  get_chapter_name_from_git_tag_of d (Some (path +:+ String "/" tag))
  = get_chapter_name_from_git_tag_of d (Some tag).
Proof.
  intros skipped Hall Hnames. unfold get_chapter_name_from_git_tag_of.
  simpl. unfold re_split. rewrite split_on_app by done.
  rewrite map_app, list_contains_app. fold (re_split path). fold skipped.
  rewrite Hall. simpl. by rewrite first_chapter_in_app.
Qed.

Lemma resolve_tag_ref tag :
  get_chapter_name_from_git_tag (Some ("refs/tags/" +:+ tag))
  = get_chapter_name_from_git_tag (Some tag).
Proof.
  apply (resolve_ignores_path _ "refs/tags" tag); [done|].
  intros n Hn. simpl in Hn. repeat destruct Hn as [<-|Hn]; done.
Qed.
End resolver_facts.

(** C2 (as amended): for every reference string, the resolver cuts it at
    every character that is not alphanumeric, the underscore included;
    it answers "all" when a piece is "all" up to case, otherwise the first
    chapter name in catalog order that is a piece up to case, otherwise
    [None]; and it never raises. *)
Theorem get_chapter_name_from_git_tag_resolves (ref : string) :
  Tag.resolves_with Tag.not_alnum ref.
Proof.
  exists (Tag.re_split ref). split; [|apply resolves_with_split].
  unfold Tag.re_split.
  rewrite (split_on_ext _ Tag.not_alnum)
    by apply re_nonword_or_underscore_not_alnum.
  apply split_on_splits.
Qed.

(** C2 as worded fails: with pieces cut only at characters that are neither
    alphanumeric nor an underscore, [build_all] is a single piece, which is
    neither "all" nor a chapter name, yet the resolver answers "all". *)
Lemma get_chapter_name_from_git_tag_underscore :
  ¬ Tag.resolves_with Tag.re_nonword "build_all".
Proof.
  intros (pieces & Hsplit & _ & _ & Hnone & _).
  apply splits_at_unique in Hsplit. vm_compute in Hsplit. subst pieces.
  assert (∀ name, name ≠ "build_all" →
                  PyStr.lower name = name →
                  ¬ Tag.occurs_in ["build_all"] name) as Hno.
  { intros name Hne Hlow (p & [<-|[]] & Heq).
    unfold Tag.same_ignoring_case in Heq. rewrite Hlow in Heq.
    apply Hne. by rewrite <-Heq. }
  assert (Tag.get_chapter_name_from_git_tag (Some "build_all") = Return None)
    as Habs; [|by vm_compute in Habs].
  apply Hnone; [by apply Hno|].
  intros c Hc. simpl in Hc.
  repeat destruct Hc as [<-|Hc]; [by apply Hno..|done].
Qed.

Example resolve_tag_chapter :
  Tag.get_chapter_name_from_git_tag (Some "v1.2.3-onikakushi")
  = Return (Some "onikakushi").
Proof. reflexivity. Qed.

Example resolve_tag_all :
  Tag.get_chapter_name_from_git_tag (Some "release-all-chapters")
  = Return (Some "all").
Proof. reflexivity. Qed.

Example resolve_tag_none :
  Tag.get_chapter_name_from_git_tag (Some "nonsense-tag") = Return None.
Proof. reflexivity. Qed.

Example resolve_tag_unset :
  raises (Tag.get_chapter_name_from_git_tag None).
Proof. by eexists. Qed.

(** ** The json round trip *)

Section json_facts.
Import PyStr Json.
#[local] Arguments String.append _ _ : simpl nomatch.

Lemma append_assoc (a b c : string) : (a +:+ b) +:+ c = a +:+ (b +:+ c).
Proof. induction a as [|x a IH]; simpl; [done|by rewrite IH]. Qed.

Lemma length_append (a b : string) :
  String.length (a +:+ b) = String.length a + String.length b.
Proof. induction a as [|x a IH]; simpl; [done|by rewrite IH]. Qed.

(** Whatever [escape_sub] writes for one character, [scanstring] reads
    back as that character. *)
Lemma scanstring_char c tail :
  scanstring ((if ESCAPE_ASCII c then replace c else String c EmptyString)
              +:+ tail)
  = append_char c (scanstring tail).
Proof. destruct c as [[] [] [] [] [] [] [] []]; reflexivity. Qed.

Lemma scanstring_escape_sub s tail :
  scanstring (escape_sub s +:+ String dquote tail) = Some (s, tail).
Proof.
  induction s as [|c s IH]; [done|].
  cbn [escape_sub]. by rewrite append_assoc, scanstring_char, IH.
Qed.

Lemma iterencode_items_cons first k v items tail :
  iterencode_items first ((k, v) :: items) +:+ tail =
  (if first then EmptyString else ", ")
  +:+ String dquote (escape_sub k +:+ String dquote (": "
  +:+ String dquote (escape_sub v +:+ String dquote
        (iterencode_items false items +:+ tail)))).
Proof.
  cbn [iterencode_items]. unfold encode_basestring_ascii.
  rewrite !append_assoc. f_equal.
  cbn [append]. rewrite !append_assoc. cbn [append]. done.
Qed.

Lemma length_iterencode first items tail :
  (List.length items ≤ String.length (iterencode_items first items +:+ tail))%nat.
Proof.
  revert first. induction items as [|[k v] items IH]; intros first.
  - simpl. lia.
  - rewrite iterencode_items_cons. specialize (IH false).
    rewrite length_append. cbn [String.length].
    rewrite length_append. cbn [String.length append].
    rewrite length_append. cbn [String.length]. simpl List.length. lia.
Qed.

Lemma skip_ws_keeps c tail :
  is_ws c = false → skip_ws (String c tail) = String c tail.
Proof. intros H. simpl. by rewrite H. Qed.

Lemma skip_ws_blank c tail :
  is_ws c = false → skip_ws (String " " (String c tail)) = String c tail.
Proof. intros H. simpl. by rewrite H. Qed.

Lemma scan_once_string s tail :
  scan_once (String dquote (escape_sub s +:+ String dquote tail))
  = Some (s, tail).
Proof. simpl. apply scanstring_escape_sub. Qed.

(** The loop reads back the items that [iterencode_items] wrote. *)
Lemma JSONObject_loop_items items : ∀ fuel acc k v tail,
  (List.length items < fuel)%nat →
  JSONObject_loop fuel acc
    (escape_sub k +:+ String dquote (": "
     +:+ String dquote (escape_sub v +:+ String dquote
           (iterencode_items false items +:+ String "}" tail))))
  = Some (acc ++ (k, v) :: items, tail).
Proof.
  induction items as [|[k' v'] items IH]; intros fuel acc k v tail Hfuel;
    (destruct fuel as [|fuel]; [simpl in Hfuel; lia|]);
    cbn [JSONObject_loop]; rewrite scanstring_escape_sub;
    cbn [append]; rewrite (skip_ws_keeps ":") by done; cbv beta match;
    rewrite (skip_ws_blank dquote) by done; rewrite scan_once_string.
  - cbn [iterencode_items append].
    by rewrite (skip_ws_keeps "}") by done.
  - rewrite iterencode_items_cons. cbn [append].
    rewrite (skip_ws_keeps ",") by done. cbv beta match.
    rewrite (skip_ws_blank dquote) by done. rewrite Ascii.eqb_refl.
    transitivity (Some ((acc ++ [(k, v)]) ++ (k', v') :: items, tail)).
    + apply IH. simpl in Hfuel. lia.
    + by rewrite <-app_assoc.
Qed.

Lemma loads_dumps_pairs (d : PyDict.dict string) :
  loads (dumps d) = Some (PyDict.of_pairs d).
Proof.
  destruct d as [|[k v] items]; [done|].
  unfold dumps, loads. cbn [append].
  rewrite (skip_ws_keeps "{") by done. cbv beta match.
  unfold JSONObject. rewrite iterencode_items_cons. cbn [append].
  rewrite (skip_ws_keeps dquote) by done. cbv beta match.
  rewrite Ascii.eqb_refl.
  rewrite (JSONObject_loop_items items _ [] k v EmptyString); [done|].
  rewrite length_append. cbn [String.length append].
  rewrite length_append. cbn [String.length].
  pose proof (length_iterencode false items "}"). lia.
Qed.

(** *** The fuel of the object loop *)

Lemma append_char_shorter c r content rest (n : nat) :
  append_char c r = Some (content, rest) →
  (∀ content' rest', r = Some (content', rest') → (String.length rest' < n)%nat) →
  (String.length rest < n)%nat.
Proof.
  destruct r as [[content' rest']|]; [|done]. simpl.
  intros [= <- <-] H. by eapply H.
Qed.

Lemma scanstring_shorter_aux (n : nat) : ∀ s content rest,
  (String.length s ≤ n)%nat →
  scanstring s = Some (content, rest) →
  (String.length rest < String.length s)%nat.
Proof.
  induction n as [|n IH]; intros s content rest Hn Hscan.
  - destruct s; [done|simpl in Hn; lia].
  - destruct s as [|c s]; [done|]. cbn [scanstring] in Hscan.
    repeat case_match; simplify_eq; cbn [String.length] in *; try lia.
    all: eapply append_char_shorter; [eassumption|];
      intros content' rest' Hr; apply IH in Hr; cbn [String.length] in *; lia.
Qed.

Lemma scanstring_shorter s content rest :
  scanstring s = Some (content, rest) →
  (String.length rest < String.length s)%nat.
Proof. by apply (scanstring_shorter_aux (String.length s)). Qed.

Lemma skip_ws_shorter s c rest :
  skip_ws s = String c rest → (String.length rest < String.length s)%nat.
Proof.
  induction s as [|a s IH]; [done|]. simpl.
  destruct (is_ws a).
  - intros H%IH. lia.
  - intros [= _ ->]. lia.
Qed.

Lemma skip_ws_length s : (String.length (skip_ws s) ≤ String.length s)%nat.
Proof.
  induction s as [|a s IH]; [done|]. simpl.
  destruct (is_ws a); simpl; lia.
Qed.

Lemma scan_once_shorter s value rest :
  scan_once (skip_ws s) = Some (value, rest) →
  (String.length rest < String.length s)%nat.
Proof.
  pose proof (skip_ws_length s) as Hlen.
  destruct (skip_ws s) as [|c s']; [done|]. simpl in *.
  destruct (Ascii.eqb c dquote); [|done].
  intros H%scanstring_shorter. lia.
Qed.

(** Fuel equal to the length of the text is enough: a result found with
    any fuel is found with that much. *)
Lemma JSONObject_loop_fuel fuel : ∀ acc s r fuel',
  JSONObject_loop fuel acc s = Some r →
  (String.length s ≤ fuel')%nat →
  JSONObject_loop fuel' acc s = Some r.
Proof.
  induction fuel as [|fuel IH]; intros acc s r fuel' Hloop Hlen; [done|].
  cbn [JSONObject_loop] in Hloop.
  destruct (scanstring s) as [[key s1]|] eqn:Hkey; [|done].
  pose proof (scanstring_shorter _ _ _ Hkey) as Hs1.
  destruct fuel' as [|fuel']; [lia|].
  cbn [JSONObject_loop]. rewrite Hkey.
  repeat case_match; simplify_eq; try done.
  apply IH; [done|].
  repeat match goal with
         | H : skip_ws _ = String _ _ |- _ => apply skip_ws_shorter in H
         | H : scan_once _ = Some _ |- _ => apply scan_once_shorter in H
         end.
  lia.
Qed.

(** Whatever [json.load] reads is a proper dict. *)
Lemma loads_wf text d : loads text = Some d → PyDict.wf d.
Proof.
  unfold loads, JSONObject. intros H.
  repeat case_match; simplify_eq; try apply wf_of_pairs; apply NoDup_nil_2.
Qed.

(** What [json.dump] writes for a dict, [json.load] reads as that dict. *)
Lemma loads_dumps (d : PyDict.dict string) :
  PyDict.wf d → loads (dumps d) = Some d.
Proof. intros Hwf. by rewrite loads_dumps_pairs, of_pairs_items. Qed.
End json_facts.

(** ** LastModifiedManager *)

Section cache_facts.
Import Cache.
Implicit Types (net : remote) (url : string) (w : world).

Lemma getRemoteLastModified_raises net url :
  raises (getRemoteLastModified net url) ↔
  net url = Unreachable ∨ net url = Response None.
Proof.
  unfold getRemoteLastModified, raises.
  destruct (net url) as [|[header|]]; split;
    try (intros [e He]; discriminate He); try (by eexists); try tauto.
  all: intros [H|H]; discriminate H.
Qed.

(** The two outcomes of a check whose request succeeded. *)
Lemma check_same net url w t :
  getRemoteLastModified net url = Return t →
  PyDict.get (lastModifiedDict w) url = Some t →
  isRemoteModifiedAndUpdateMemory net url w = (Return false, w).
Proof.
  intros Hnet Hget. unfold isRemoteModifiedAndUpdateMemory.
  unfold mbind, M_bind, bind, lift, get_dict. rewrite Hnet, Hget. simpl.
  by rewrite String.eqb_refl.
Qed.

Lemma check_changed net url w t :
  getRemoteLastModified net url = Return t →
  PyDict.get (lastModifiedDict w) url ≠ Some t →
  isRemoteModifiedAndUpdateMemory net url w =
    (Return true, World (PyDict.setitem (lastModifiedDict w) url t) (files w)).
Proof.
  intros Hnet Hget. unfold isRemoteModifiedAndUpdateMemory.
  unfold mbind, M_bind, bind, lift, get_dict. rewrite Hnet.
  assert (same_date (PyDict.get (lastModifiedDict w) url) t = false) as ->;
    [|done].
  destruct (PyDict.get (lastModifiedDict w) url) as [l|]; [|done].
  simpl. apply String.eqb_neq. congruence.
Qed.

Lemma check_raises net url w e :
  getRemoteLastModified net url = Raise e →
  isRemoteModifiedAndUpdateMemory net url w = (Raise e, w).
Proof.
  intros Hnet. unfold isRemoteModifiedAndUpdateMemory.
  unfold mbind, M_bind, bind, lift. by rewrite Hnet.
Qed.

(** The dict stays a proper dict through every method. *)
Lemma check_wf net url w :
  PyDict.wf (lastModifiedDict w) →
  PyDict.wf (lastModifiedDict (isRemoteModifiedAndUpdateMemory net url w).2).
Proof.
  intros Hwf. destruct (getRemoteLastModified net url) as [e|t] eqn:Hnet.
  - by rewrite (check_raises _ _ _ _ Hnet).
  - destruct (decide (PyDict.get (lastModifiedDict w) url = Some t)) as [Hget|Hget].
    + by rewrite (check_same _ _ _ _ Hnet Hget).
    + rewrite (check_changed _ _ _ _ Hnet Hget). by apply wf_setitem.
Qed.

Lemma init_wf w : PyDict.wf (lastModifiedDict (init w).2).
Proof.
  unfold init, mbind, M_bind, bind, put_dict, get_files. simpl.
  destruct (files w !! savePath) as [text|]; simpl; [|apply NoDup_nil_2].
  destruct (Json.loads text) as [d|] eqn:Hloads; simpl.
  - by apply loads_wf in Hloads.
  - apply NoDup_nil_2.
Qed.
End cache_facts.

(** C1: when the request succeeds with the date [t], the check returns
    [False] exactly when the dict already holds [t] for the url, and then
    leaves the state as it is; in every other case (no entry, or another
    value) it returns [True] and the dict is the old one with the url set
    to [t]. *)
Theorem isRemoteModified_compares (net : Cache.remote) (url t : string)
    (w : Cache.world) :
  Cache.getRemoteLastModified net url = Return t →
  let recorded := PyDict.get (Cache.lastModifiedDict w) url in
  let (answer, w') := Cache.isRemoteModifiedAndUpdateMemory net url w in
  (answer = Return false ↔ recorded = Some t) ∧
  (recorded = Some t → answer = Return false ∧ w' = w) ∧
  (recorded ≠ Some t →
     answer = Return true ∧
     Cache.lastModifiedDict w' = PyDict.setitem (Cache.lastModifiedDict w) url t ∧
     PyDict.get (Cache.lastModifiedDict w') url = Some t).
Proof.
  intros Hnet recorded.
  destruct (decide (recorded = Some t)) as [Hsame|Hdiff].
  - rewrite (check_same _ _ _ _ Hnet Hsame). by split_and!.
  - rewrite (check_changed _ _ _ _ Hnet Hdiff).
    split_and!; [by split|done|].
    intros _. split_and!; [done|done|]. apply get_setitem_eq.
Qed.

Lemma isRemoteModified_compares_witness :
  let net : Cache.remote := λ _, Cache.Response (Some " T2 ") in
  let url := "http://07th-mod.com/archive/vanilla.7z" in
  let w := Cache.World [(url, "T1")] ∅ in
  Cache.getRemoteLastModified net url = Return "T2" ∧
  let recorded := PyDict.get (Cache.lastModifiedDict w) url in
  let (answer, w') := Cache.isRemoteModifiedAndUpdateMemory net url w in
  (answer = Return false ↔ recorded = Some "T2") ∧
  (recorded = Some "T2" → answer = Return false ∧ w' = w) ∧
  (recorded ≠ Some "T2" →
     answer = Return true ∧
     Cache.lastModifiedDict w' = PyDict.setitem (Cache.lastModifiedDict w) url "T2" ∧
     PyDict.get (Cache.lastModifiedDict w') url = Some "T2").
Proof.
  intros net url w. split; [reflexivity|].
  apply (isRemoteModified_compares net url "T2" w). reflexivity.
Defined.

(** C3: when the request cannot be completed or the response has no
    [Last-Modified] header, the check raises, and the state (the dict and
    the files) is exactly what it was before the call. *)
Theorem isRemoteModified_fetch_fails (net : Cache.remote) (url : string)
    (w : Cache.world) :
  net url = Cache.Unreachable ∨ net url = Cache.Response None →
  ∃ e, Cache.getRemoteLastModified net url = Raise e ∧
       Cache.isRemoteModifiedAndUpdateMemory net url w = (Raise e, w).
Proof.
  intros [e He]%getRemoteLastModified_raises.
  exists e. split; [done|]. by apply check_raises.
Qed.

Lemma isRemoteModified_fetch_fails_witness :
  let net : Cache.remote := λ _, Cache.Response None in
  let w := Cache.World [("u", "T1")] ∅ in
  ∃ e, Cache.getRemoteLastModified net "u" = Raise e ∧
       Cache.isRemoteModifiedAndUpdateMemory net "u" w = (Raise e, w).
Proof.
  intros net w. apply isRemoteModified_fetch_fails. right. reflexivity.
Defined.

(** C5: with the remote date the same for both calls, the second of two
    checks in a row returns [False], whatever the state before the first
    and whatever the first returned. *)
Theorem isRemoteModified_twice (net : Cache.remote) (url t : string)
    (w : Cache.world) :
  Cache.getRemoteLastModified net url = Return t →
  let w1 := (Cache.isRemoteModifiedAndUpdateMemory net url w).2 in
  (Cache.isRemoteModifiedAndUpdateMemory net url w1).1 = Return false.
Proof.
  intros Hnet w1. subst w1.
  destruct (decide (PyDict.get (Cache.lastModifiedDict w) url = Some t))
    as [Hsame|Hdiff].
  - rewrite (check_same _ _ _ _ Hnet Hsame). simpl.
    by rewrite (check_same _ _ _ _ Hnet Hsame).
  - rewrite (check_changed _ _ _ _ Hnet Hdiff). simpl.
    rewrite (check_same _ _ _ t Hnet); [done|]. apply get_setitem_eq.
Qed.

Lemma isRemoteModified_twice_witness :
  let net : Cache.remote := λ _, Cache.Response (Some "T1") in
  (Cache.isRemoteModifiedAndUpdateMemory net "u" (Cache.World [] ∅)).1
    = Return true ∧
  (Cache.isRemoteModifiedAndUpdateMemory net "u"
     (Cache.isRemoteModifiedAndUpdateMemory net "u" (Cache.World [] ∅)).2).1
    = Return false.
Proof.
  intros net. split; [reflexivity|].
  apply (isRemoteModified_twice net "u" "T1"). reflexivity.
Defined.

(** C9: with no file at [savePath], [__init__] returns normally and the
    manager's dict is empty; the files are untouched. *)
Theorem init_without_store (w : Cache.world) :
  Cache.files w !! Cache.savePath = None →
  Cache.init w = (Return tt, Cache.World [] (Cache.files w)).
Proof.
  intros Hnone. unfold Cache.init.
  unfold mbind, Cache.M_bind, Cache.bind, Cache.put_dict, Cache.get_files.
  simpl. by rewrite Hnone.
Qed.

Lemma init_without_store_witness :
  Cache.init (Cache.World [("u", "T1")] ∅) = (Return tt, Cache.World [] ∅).
Proof. apply (init_without_store (Cache.World [("u", "T1")] ∅)). reflexivity. Defined.

(** C10: a check of [url] leaves the entry of every other url as it was and
    leaves every file as it was, whether it returns or raises; among the
    methods only [save] writes, and only to [savePath]. *)
Theorem isRemoteModified_frame (net : Cache.remote) (url url' : string)
    (w : Cache.world) :
  url' ≠ url →
  let w' := (Cache.isRemoteModifiedAndUpdateMemory net url w).2 in
  PyDict.get (Cache.lastModifiedDict w') url'
    = PyDict.get (Cache.lastModifiedDict w) url' ∧
  Cache.files w' = Cache.files w ∧
  Cache.files (Cache.init w).2 = Cache.files w ∧
  (∀ path, path ≠ Cache.savePath →
     Cache.files (Cache.save w).2 !! path = Cache.files w !! path).
Proof.
  intros Hne w'. subst w'. split_and!.
  - destruct (Cache.getRemoteLastModified net url) as [e|t] eqn:Hnet.
    + by rewrite (check_raises _ _ _ _ Hnet).
    + destruct (decide (PyDict.get (Cache.lastModifiedDict w) url = Some t))
        as [Hsame|Hdiff].
      * by rewrite (check_same _ _ _ _ Hnet Hsame).
      * rewrite (check_changed _ _ _ _ Hnet Hdiff). simpl.
        apply get_setitem_ne. congruence.
  - destruct (Cache.getRemoteLastModified net url) as [e|t] eqn:Hnet.
    + by rewrite (check_raises _ _ _ _ Hnet).
    + destruct (decide (PyDict.get (Cache.lastModifiedDict w) url = Some t))
        as [Hsame|Hdiff].
      * by rewrite (check_same _ _ _ _ Hnet Hsame).
      * by rewrite (check_changed _ _ _ _ Hnet Hdiff).
  - unfold Cache.init.
    unfold mbind, Cache.M_bind, Cache.bind, Cache.put_dict, Cache.get_files.
    simpl. destruct (Cache.files w !! Cache.savePath) as [text|]; [|done].
    by destruct (Json.loads text).
  - intros path Hpath. simpl. by rewrite lookup_insert_ne.
Qed.

Lemma isRemoteModified_frame_witness :
  let net : Cache.remote := λ _, Cache.Response (Some "T2") in
  let w := Cache.World [("a", "T1"); ("b", "T1")] ∅ in
  PyDict.get
    (Cache.lastModifiedDict (Cache.isRemoteModifiedAndUpdateMemory net "a" w).2)
    "b" = Some "T1".
Proof.
  intros net w.
  refine (proj1 (isRemoteModified_frame net "a" "b" w _)). discriminate.
Defined.

(** C4: after [save], a manager constructed anew from the files reads back
    the very dict that was saved, keys and values equal as strings (and in
    the same order). *)
Theorem save_then_init (w : Cache.world) (d0 : PyDict.dict string) :
  PyDict.wf (Cache.lastModifiedDict w) →
  let (saved, w1) := Cache.save w in
  saved = Return tt ∧
  Cache.init (Cache.World d0 (Cache.files w1))
    = (Return tt, Cache.World (Cache.lastModifiedDict w) (Cache.files w1)).
Proof.
  intros Hwf. simpl. split; [done|].
  unfold Cache.init.
  unfold mbind, Cache.M_bind, Cache.bind, Cache.put_dict, Cache.get_files.
  simpl. rewrite lookup_insert_eq. by rewrite loads_dumps.
Qed.

Lemma save_then_init_witness :
  let d := [("http://07th-mod.com/archive/vanilla.7z",
             "Wed, 21 Oct 2015 07:28:00 GMT");
            ("u", String Json.dquote (String Json.backslash
                    (String (PyStr.chr 233) (String (PyStr.chr 10) "/"))))] in
  Cache.init (Cache.World [] (Cache.files (Cache.save (Cache.World d ∅)).2))
  = (Return tt, Cache.World d (Cache.files (Cache.save (Cache.World d ∅)).2)).
Proof.
  intros d.
  refine (proj2 (save_then_init (Cache.World d ∅) [] _)).
  apply (bool_decide_unpack _). by vm_compute.
Defined.

(** * Further properties of the script *)

(** ** The tag and the resolver *)

Section tag_facts.
Import PyStr Tag.

Lemma join_last (sep : ascii → bool) rest : ∀ piece,
  Forall (λ cp : ascii * string, sep cp.1 = true) rest →
  ∃ path,
    join piece rest = path +:+ List.last (piece :: map snd rest) EmptyString ∧
    (path = EmptyString ∨ ∃ p c, path = p +:+ String c EmptyString ∧ sep c = true).
Proof.
  induction rest as [|[c piece'] rest IH]; intros piece Hseps.
  - exists EmptyString. by split; [|left].
  - apply Forall_cons in Hseps as [Hc Hseps].
    destruct (IH piece' Hseps) as (path & Hjoin & Hpath).
    exists (piece +:+ String c path). split.
    + cbn [join]. rewrite Hjoin. change (map snd ((c, piece') :: rest))
        with (piece' :: map snd rest).
      change (List.last (piece :: piece' :: map snd rest) EmptyString)
        with (List.last (piece' :: map snd rest) EmptyString).
      rewrite append_assoc. done.
    + right. destruct Hpath as [->|(p & c' & -> & Hc')].
      * exists piece, c. done.
      * exists (piece +:+ String c p), c'. split; [|done].
        by rewrite append_assoc.
Qed.

Lemma last_In (l : list string) d : l ≠ [] → In (List.last l d) l.
Proof.
  induction l as [|a [|b l] IH]; intros Hne; [done|by left|].
  right. by apply IH.
Qed.






Lemma first_chapter_in_In names fragments name :
  first_chapter_in names fragments = Some name → In name names.
Proof.
  induction names as [|n names IH]; simpl; [done|].
  destruct (list_contains fragments (lower n)).
  - intros [= ->]. by left.
  - intros H. right. by apply IH.
Qed.

Lemma resolver_range (d : PyDict.dict (list string)) ref name :
  get_chapter_name_from_git_tag_of d (Some ref) = Return (Some name) →
  name = "all" ∨ In name (PyDict.keys d).
Proof.
  unfold get_chapter_name_from_git_tag_of. simpl.
  destruct (list_contains _ "all").
  - intros [= <-]. by left.
  - intros [= H]. right. by apply first_chapter_in_In in H.
Qed.
Lemma resolver_returns (d : PyDict.dict (list string)) ref :
  returns (get_chapter_name_from_git_tag_of d (Some ref)).
Proof.
  unfold get_chapter_name_from_git_tag_of. simpl.
  destruct (list_contains _ "all"); by eexists.
Qed.

Lemma resolver_answer_accepted ref name :
  get_chapter_name_from_git_tag (Some ref) = Return (Some name) →
  ∃ build_variants,
    Catalog.get_build_variants name = Return build_variants ∧
    build_variants ≠ [].
Proof.
  intros [->|Hin]%resolver_range; [by eexists|].
  simpl in Hin. repeat destruct Hin as [<-|Hin]; try done; by eexists.
Qed.
End tag_facts.

(** X1: the tag taken from a reference is its last path component: it has
    no slash, and the reference is the tag alone or a path ending in a
    slash followed by the tag. *)
Theorem GIT_TAG_last_component (ref : string) :
  ∃ tag path,
    Tag.GIT_TAG (Some ref) = Some tag ∧
    PyStr.all_chars (λ c, negb (Ascii.eqb "/" c)) tag = true ∧
    ref = path +:+ tag ∧
    (path = EmptyString ∨ ∃ p, path = p +:+ "/").
Proof.
  destruct (split_on_splits (Ascii.eqb "/") ref)
    as (piece & rest & Hsplit & Hjoin & Hseps & Hpieces).
  destruct (join_last (Ascii.eqb "/") rest piece Hseps) as (path & Hlast & Hpath).
  exists (List.last (PyStr.split_on (Ascii.eqb "/") ref) EmptyString), path.
  split_and!; [done| |by rewrite Hsplit, <-Hlast| ].
  - rewrite List.Forall_forall in Hpieces. apply Hpieces.
    rewrite Hsplit. by apply last_In.
  - destruct Hpath as [->|(p & c & -> & Hc)]; [by left|right].
    exists p. by apply Ascii.eqb_eq in Hc as <-.
Qed.

(** X2: whatever name the resolver answers, [get_build_variants] accepts:
    the name is "all" or a chapter of the catalog, and its list of variants
    is returned and is not empty. *)
Theorem resolver_answer_builds (ref name : string) :
  Tag.get_chapter_name_from_git_tag (Some ref) = Return (Some name) →
  (name = "all" ∨ In name (PyDict.keys Catalog.chapter_to_build_variants)) ∧
  ∃ build_variants,
    Catalog.get_build_variants name = Return build_variants ∧
    build_variants ≠ [].
Proof.
  intros Hname. split.
  - by apply resolver_range in Hname.
  - by apply resolver_answer_accepted in Hname.
Qed.

Lemma resolver_answer_builds_witness :
  Tag.get_chapter_name_from_git_tag (Some "refs/tags/v2.0_Meakashi")
    = Return (Some "meakashi") ∧
  ∃ build_variants,
    Catalog.get_build_variants "meakashi" = Return build_variants ∧
    build_variants ≠ [].
Proof.
  split; [reflexivity|].
  apply (resolver_answer_builds "refs/tags/v2.0_Meakashi" "meakashi").
  reflexivity.
Defined.



(** X4: the resolver looks at the whole reference, but what stands before a
    slash counts only through its own fragments: when none of them is "all"
    or a chapter name, the answer is the one for what follows the slash. *)
Theorem resolver_ignores_path (path rest : string) :
  let skipped := map PyStr.lower (Tag.re_split path) in
  PyStr.list_contains skipped "all" = false →
  (∀ name, In name (PyDict.keys Catalog.chapter_to_build_variants) →
           PyStr.list_contains skipped (PyStr.lower name) = false) →
  Tag.get_chapter_name_from_git_tag (Some (path +:+ String "/" rest))
  = Tag.get_chapter_name_from_git_tag (Some rest).
Proof. intros skipped Hall Hnames. by apply resolve_ignores_path. Qed.

Lemma resolver_ignores_path_witness :
  Tag.get_chapter_name_from_git_tag (Some "refs/tags/v1.2.3-onikakushi")
  = Tag.get_chapter_name_from_git_tag (Some "v1.2.3-onikakushi").
Proof.
  apply (resolver_ignores_path "refs/tags" "v1.2.3-onikakushi"); [reflexivity|].
  intros name Hname. simpl in Hname.
  repeat destruct Hname as [<-|Hname]; [reflexivity..|destruct Hname].
Defined.

(** ** Choosing what to build *)

(** X5: for an argument the parser accepts, the selection raises only when
    "github_actions" is asked for and [GITHUB_REF] is not set, and then it
    does raise; it skips the build only when the reference names neither
    "all" nor a chapter; otherwise it gives a name with that name's variants,
    which are not empty.  The "Unknown Chapter" exception cannot come out. *)
Theorem select_accepted (chapter : string) (GIT_REF : option string) :
  In chapter Script.chapter_choices →
  match Script.select chapter GIT_REF with
  | Raise e =>
      chapter = "github_actions" ∧ GIT_REF = None
  | Return Script.Skip =>
      chapter = "github_actions" ∧
      ∃ ref, GIT_REF = Some ref ∧
             Tag.get_chapter_name_from_git_tag (Some ref) = Return None
  | Return (Script.Build chapter_name build_variants) =>
      Catalog.get_build_variants chapter_name = Return build_variants ∧
      build_variants ≠ [] ∧
      (chapter ≠ "github_actions" → chapter_name = chapter)
  end ∧
  (chapter = "github_actions" → GIT_REF = None →
   raises (Script.select chapter GIT_REF)).
Proof.
  intros Hin. split; [|by intros -> ->; eexists].
  simpl in Hin. destruct Hin as [<-|[<-|Hin]].
  - by split_and!.
  - unfold Script.select, Script.select_of.
    change ("github_actions" =? "github_actions")%string with true.
    cbv beta iota.
    destruct GIT_REF as [ref|]; [|done].
    fold Tag.get_chapter_name_from_git_tag.
    destruct (Tag.get_chapter_name_from_git_tag (Some ref)) as [e|[name|]] eqn:Hres.
    + destruct (resolver_returns Catalog.chapter_to_build_variants ref)
        as [a Ha].
      unfold Tag.get_chapter_name_from_git_tag in Hres. congruence.
    + destruct (resolver_answer_accepted ref name Hres) as (vs & Hvs & Hne).
      fold Catalog.get_build_variants. rewrite Hvs. by split_and!.
    + split; [done|]. by exists ref.
  - repeat destruct Hin as [<-|Hin]; try done; by split_and!.
Qed.

Lemma select_accepted_witness :
  let chapter := "github_actions" in
  let GIT_REF := Some "refs/tags/v1-rei" in
  In chapter Script.chapter_choices ∧
  match Script.select chapter GIT_REF with
  | Raise e =>
      chapter = "github_actions" ∧ GIT_REF = None
  | Return Script.Skip =>
      chapter = "github_actions" ∧
      ∃ ref, GIT_REF = Some ref ∧
             Tag.get_chapter_name_from_git_tag (Some ref) = Return None
  | Return (Script.Build chapter_name build_variants) =>
      Catalog.get_build_variants chapter_name = Return build_variants ∧
      build_variants ≠ [] ∧
      (chapter ≠ "github_actions" → chapter_name = chapter)
  end.
Proof.
  intros chapter GIT_REF.
  assert (In chapter Script.chapter_choices) as Hin by (simpl; tauto).
  split; [exact Hin|].
  exact (proj1 (select_accepted chapter GIT_REF Hin)).
Defined.

(** X6: every variant of a chapter is among those of "all", as one block in
    the chapter's own order. *)
Theorem chapter_within_all (chapter : string) (build_variants : list string) :
  chapter ≠ "all" →
  Catalog.get_build_variants chapter = Return build_variants →
  ∃ before after,
    Catalog.get_build_variants "all"
    = Return (before ++ build_variants ++ after).
Proof.
  intros Hall Hget. unfold Catalog.get_build_variants in *.
  rewrite get_build_variants_of_all.
  unfold Catalog.get_build_variants_of in Hget.
  apply String.eqb_neq in Hall. rewrite Hall in Hget.
  destruct (PyDict.contains _ chapter); [|done].
  destruct (PyDict.get _ chapter) as [vs|] eqn:Hvs; [|done].
  injection Hget as ->. apply get_In in Hvs.
  apply in_split in Hvs as (d1 & d2 & Hd).
  exists (concat (PyDict.values d1)), (concat (PyDict.values d2)).
  rewrite Hd. unfold PyDict.values.
  by rewrite map_app, concat_app.
Qed.

Lemma chapter_within_all_witness :
  ∃ before after,
    Catalog.get_build_variants "all"
    = Return (before ++ ["rei 2019.4.3 win"; "rei 2019.4.3 unix"] ++ after).
Proof.
  apply (chapter_within_all "rei"); [discriminate|reflexivity].
Defined.

(** ** The date read from the remote *)

Section strip_facts.
Import PyStr.
#[local] Arguments String.append _ _ : simpl nomatch.

Lemma lstrip_split s :
  ∃ left, s = left +:+ lstrip s ∧ all_chars isspace left = true.
Proof.
  induction s as [|c s (left & Hs & Hleft)].
  - by exists EmptyString.
  - simpl. destruct (isspace c) eqn:Hc.
    + exists (String c left). simpl. by rewrite Hc, Hleft, <-Hs.
    + by exists EmptyString.
Qed.

Lemma lstrip_head s c rest : lstrip s = String c rest → isspace c = false.
Proof.
  induction s as [|x s IH]; simpl; [done|].
  destruct (isspace x) eqn:Hx; [done|]. by intros [= <- _].
Qed.

Lemma rstrip_split s :
  ∃ right, s = rstrip s +:+ right ∧ all_chars isspace right = true.
Proof.
  induction s as [|c s (right & Hs & Hright)].
  - by exists EmptyString.
  - simpl. destruct (rstrip s) as [|a r] eqn:Hr.
    + simpl in Hs. subst right. destruct (isspace c) eqn:Hc.
      * exists (String c s). simpl. by rewrite Hc, Hright.
      * by exists s.
    + exists right. split; [|done]. simpl in Hs |- *. by rewrite <-Hs.
Qed.

Lemma rstrip_last s : ∀ init c,
  rstrip s = init +:+ String c EmptyString → isspace c = false.
Proof.
  induction s as [|x s IH]; intros init c; simpl.
  - by destruct init.
  - destruct (rstrip s) as [|a r] eqn:Hr.
    + destruct (isspace x) eqn:Hx; [by destruct init|].
      destruct init as [|i [|i' init]]; simpl; [|done..].
      by intros [= <-].
    + destruct init as [|i init]; simpl; [done|].
      intros [= <- H]. by apply (IH init).
Qed.

Lemma rstrip_head s c rest :
  rstrip s = String c rest → ∃ rest', s = String c rest'.
Proof.
  destruct s as [|x s]; simpl; [done|].
  destruct (rstrip s); [destruct (isspace x)|]; intros [= <- _]; by eexists.
Qed.

Lemma lstrip_blank s : all_chars isspace s = true → lstrip s = EmptyString.
Proof.
  induction s as [|c s IH]; simpl; [done|].
  intros [-> Hs]%andb_prop. by apply IH.
Qed.

Lemma all_chars_app P (a b : string) :
  all_chars P (a +:+ b) = all_chars P a && all_chars P b.
Proof.
  induction a as [|x a IH]; [done|].
  change (String x a +:+ b) with (String x (a +:+ b)). simpl.
  by rewrite IH, andb_assoc.
Qed.

(** What [s.strip()] is: [s] without the blanks at its two ends. *)
Lemma strip_spec s :
  ∃ left right,
    s = left +:+ strip s +:+ right ∧
    all_chars isspace left = true ∧ all_chars isspace right = true ∧
    (∀ c rest, strip s = String c rest → isspace c = false) ∧
    (∀ init c, strip s = init +:+ String c EmptyString → isspace c = false).
Proof.
  unfold strip.
  destruct (lstrip_split s) as (left & Hs & Hleft).
  destruct (rstrip_split (lstrip s)) as (right & Hl & Hright).
  exists left, right. split_and!; [|done|done| |apply rstrip_last].
  - by rewrite <-Hl.
  - intros c rest (rest' & Hc)%rstrip_head. by apply lstrip_head in Hc.
Qed.

Lemma strip_blank s : strip s = EmptyString ↔ all_chars isspace s = true.
Proof.
  split.
  - intros Hempty. destruct (strip_spec s) as (left & right & Hs & Hl & Hr & _).
    rewrite Hempty in Hs. rewrite Hs, all_chars_app.
    change (EmptyString +:+ right) with right. by rewrite Hl, Hr.
  - intros Hs. unfold strip. by rewrite lstrip_blank.
Qed.
End strip_facts.

(** X7: the date [getRemoteLastModified] returns is the header without the
    blanks at its two ends: it neither starts nor ends with one, only
    blanks are dropped, and a header of blanks alone gives the empty date
    rather than an error. *)
Theorem getRemoteLastModified_stripped (net : Cache.remote)
    (url header : string) :
  net url = Cache.Response (Some header) →
  ∃ date left right,
    Cache.getRemoteLastModified net url = Return date ∧
    header = left +:+ date +:+ right ∧
    PyStr.all_chars PyStr.isspace left = true ∧
    PyStr.all_chars PyStr.isspace right = true ∧
    (∀ c rest, date = String c rest → PyStr.isspace c = false) ∧
    (∀ init c, date = init +:+ String c EmptyString → PyStr.isspace c = false) ∧
    (date = EmptyString ↔ PyStr.all_chars PyStr.isspace header = true).
Proof.
  intros Hnet. unfold Cache.getRemoteLastModified. rewrite Hnet.
  destruct (strip_spec header) as (left & right & H1 & H2 & H3 & H4 & H5).
  exists (PyStr.strip header), left, right.
  split_and!; [done..|apply strip_blank].
Qed.

Lemma getRemoteLastModified_stripped_witness :
  let net : Cache.remote :=
    λ _, Cache.Response (Some "  Wed, 21 Oct 2015 07:28:00 GMT ") in
  ∃ date left right,
    Cache.getRemoteLastModified net "u" = Return date ∧
    "  Wed, 21 Oct 2015 07:28:00 GMT " = left +:+ date +:+ right ∧
    PyStr.all_chars PyStr.isspace left = true ∧
    PyStr.all_chars PyStr.isspace right = true ∧
    (∀ c rest, date = String c rest → PyStr.isspace c = false) ∧
    (∀ init c, date = init +:+ String c EmptyString → PyStr.isspace c = false) ∧
    (date = EmptyString ↔
     PyStr.all_chars PyStr.isspace "  Wed, 21 Oct 2015 07:28:00 GMT " = true).
Proof.
  intros net.
  apply (getRemoteLastModified_stripped net "u"
           "  Wed, 21 Oct 2015 07:28:00 GMT ").
  reflexivity.
Defined.

(** ** The manager across runs of the script *)

Section restart_facts.
Import Cache.
Implicit Types (net : remote) (url : string) (w : world).

(** [__init__] does not look at the dict it starts from. *)
Lemma init_fresh d d' fs : init (World d fs) = init (World d' fs).
Proof. done. Qed.

Lemma init_reads_dumps d d0 fs :
  PyDict.wf d →
  init (World d0 (<[savePath := Json.dumps d]> fs))
  = (Return tt, World d (<[savePath := Json.dumps d]> fs)).
Proof.
  intros Hwf. unfold init, mbind, M_bind, bind, put_dict, get_files. simpl.
  rewrite lookup_insert_eq. by rewrite loads_dumps.
Qed.

Lemma check_records net url w t :
  getRemoteLastModified net url = Return t →
  PyDict.get (lastModifiedDict (isRemoteModifiedAndUpdateMemory net url w).2) url
  = Some t.
Proof.
  intros Hnet.
  destruct (decide (PyDict.get (lastModifiedDict w) url = Some t)) as [Hsame|Hdiff].
  - by rewrite (check_same _ _ _ _ Hnet Hsame).
  - rewrite (check_changed _ _ _ _ Hnet Hdiff). apply get_setitem_eq.
Qed.

Lemma check_files net url w :
  files (isRemoteModifiedAndUpdateMemory net url w).2 = files w.
Proof.
  destruct (getRemoteLastModified net url) as [e|t] eqn:Hnet.
  - by rewrite (check_raises _ _ _ _ Hnet).
  - destruct (decide (PyDict.get (lastModifiedDict w) url = Some t)) as [Hsame|Hdiff].
    + by rewrite (check_same _ _ _ _ Hnet Hsame).
    + by rewrite (check_changed _ _ _ _ Hnet Hdiff).
Qed.

Lemma init_files w : files (init w).2 = files w.
Proof.
  unfold init, mbind, M_bind, bind, put_dict, get_files. simpl.
  destruct (files w !! savePath) as [text|]; [|done].
  by destruct (Json.loads text).
Qed.
End restart_facts.

(** X8: a check followed by [save] is remembered by the next run: a manager
    constructed from the files then left answers [False] for the same url
    while the remote date stays the same. *)
Theorem check_save_restart (net : Cache.remote) (url t : string)
    (w : Cache.world) (d0 : PyDict.dict string) :
  PyDict.wf (Cache.lastModifiedDict w) →
  Cache.getRemoteLastModified net url = Return t →
  let w1 := (Cache.isRemoteModifiedAndUpdateMemory net url w).2 in
  let w2 := (Cache.save w1).2 in
  ∃ w3,
    Cache.init (Cache.World d0 (Cache.files w2)) = (Return tt, w3) ∧
    Cache.isRemoteModifiedAndUpdateMemory net url w3 = (Return false, w3).
Proof.
  intros Hwf Hnet w1 w2. subst w2. simpl.
  eexists. split.
  - apply init_reads_dumps. by apply check_wf.
  - apply (check_same _ _ _ t Hnet). simpl. by apply check_records.
Qed.

Lemma check_save_restart_witness :
  let net : Cache.remote := λ _, Cache.Response (Some "T2") in
  let w := Cache.World [("a", "T1"); ("b", "T1")] ∅ in
  let w1 := (Cache.isRemoteModifiedAndUpdateMemory net "a" w).2 in
  let w2 := (Cache.save w1).2 in
  ∃ w3,
    Cache.init (Cache.World [] (Cache.files w2)) = (Return tt, w3) ∧
    Cache.isRemoteModifiedAndUpdateMemory net "a" w3 = (Return false, w3).
Proof.
  intros net w.
  apply (check_save_restart net "a" "T2" w []); [|reflexivity].
  apply (bool_decide_unpack _). by vm_compute.
Defined.

(** X9: a check that is not followed by [save] is forgotten by the next
    run: a manager constructed again from the files is in the state the
    first one started in, so the check answers as it did the first time. *)
Theorem unsaved_check_repeats (net : Cache.remote) (url : string)
    (fs : gmap string string) (d0 d1 : PyDict.dict string) (w : Cache.world) :
  Cache.init (Cache.World d0 fs) = (Return tt, w) →
  let w1 := (Cache.isRemoteModifiedAndUpdateMemory net url w).2 in
  Cache.init (Cache.World d1 (Cache.files w1)) = (Return tt, w).
Proof.
  intros Hinit w1. subst w1. rewrite check_files.
  pose proof (init_files (Cache.World d0 fs)) as Hfs.
  rewrite Hinit in Hfs. simpl in Hfs. rewrite Hfs.
  by rewrite (init_fresh d1 d0).
Qed.

Lemma unsaved_check_repeats_witness :
  let net : Cache.remote := λ _, Cache.Response (Some "T2") in
  let w := Cache.World [] ∅ in
  (Cache.isRemoteModifiedAndUpdateMemory net "u" w).1 = Return true ∧
  Cache.init (Cache.World []
                (Cache.files (Cache.isRemoteModifiedAndUpdateMemory net "u" w).2))
  = (Return tt, w).
Proof.
  intros net w. split; [reflexivity|].
  apply (unsaved_check_repeats net "u" ∅ [] [] w). reflexivity.
Defined.

(** X10: a file that is there but holds nothing, or blanks only, is not
    taken for an empty cache: [__init__] raises [JSONDecodeError]. *)
Theorem init_blank_store (w : Cache.world) (text : string) :
  Cache.files w !! Cache.savePath = Some text →
  Json.skip_ws text = EmptyString →
  Cache.init w = (Raise JSONDecodeError, Cache.World [] (Cache.files w)).
Proof.
  intros Hfile Hblank. unfold Cache.init.
  unfold mbind, Cache.M_bind, Cache.bind, Cache.put_dict, Cache.get_files.
  simpl. rewrite Hfile. unfold Json.loads. by rewrite Hblank.
Qed.

Lemma init_blank_store_witness :
  let w := Cache.World [("u", "T1")] {[ Cache.savePath := " " ]} in
  Cache.init w = (Raise JSONDecodeError, Cache.World [] (Cache.files w)).
Proof.
  intros w. apply (init_blank_store w " "); [|reflexivity].
  apply lookup_singleton_eq.
Defined.

Section ascii_facts.
Import PyStr Json Script.

Lemma replace_printable c :
  all_chars printable_ascii
    (if ESCAPE_ASCII c then replace c else String c EmptyString) = true.
Proof. destruct c as [[] [] [] [] [] [] [] []]; reflexivity. Qed.

Lemma escape_sub_printable s : all_chars printable_ascii (escape_sub s) = true.
Proof.
  induction s as [|c s IH]; [done|].
  cbn [escape_sub]. by rewrite all_chars_app, replace_printable, IH.
Qed.

Lemma encode_printable s :
  all_chars printable_ascii (encode_basestring_ascii s) = true.
Proof.
  unfold encode_basestring_ascii. cbn [all_chars].
  by rewrite all_chars_app, escape_sub_printable.
Qed.

Lemma iterencode_printable first items :
  all_chars printable_ascii (iterencode_items first items) = true.
Proof.
  revert first. induction items as [|[k v] items IH]; intros first; [done|].
  cbn [iterencode_items].
  rewrite !all_chars_app, !encode_printable, IH. by destruct first.
Qed.
End ascii_facts.

(** X11: what [save] writes is made of the characters from the space to the
    tilde only, whatever the urls and dates hold, so the file reads the same
    under every encoding that extends ASCII. *)
Theorem save_writes_ascii (w : Cache.world) :
  ∃ text,
    Cache.files (Cache.save w).2 !! Cache.savePath = Some text ∧
    text = Json.dumps (Cache.lastModifiedDict w) ∧
    PyStr.all_chars Script.printable_ascii text = true.
Proof.
  exists (Json.dumps (Cache.lastModifiedDict w)). split_and!; [|done|].
  - simpl. apply lookup_insert_eq.
  - unfold Json.dumps. destruct (Cache.lastModifiedDict w) as [|item items];
      [done|].
    change ("{" +:+ Json.iterencode_items true (item :: items) +:+ "}")
      with (String "{" (Json.iterencode_items true (item :: items) +:+ "}")).
    cbn [PyStr.all_chars].
    by rewrite all_chars_app, iterencode_printable.
Qed.

(** ** Running the builds *)

Section build_facts.
Import Script.
Implicit Types (sys : system) (invoked : list args) (a : args).

Lemma call_ok sys a invoked :
  sys invoked a = Exited 0 → call sys a invoked = (Done tt, invoked ++ [a]).
Proof.
  intros Hsys. unfold call, mbind, SM_bind, sm_bind, subprocess_call.
  by rewrite Hsys.
Qed.

Lemma call_fails sys a invoked :
  sys invoked a ≠ Exited 0 →
  call sys a invoked = (Failed (call_error a (sys invoked a)), invoked ++ [a]).
Proof.
  intros Hsys. unfold call, mbind, SM_bind, sm_bind, subprocess_call.
  destruct (sys invoked a) as [retcode|]; [|done].
  destruct (Z.eqb_spec retcode 0) as [->|Hne]; done.
Qed.

Lemma call_each_ok sys commands : ∀ invoked,
  all_exit_zero sys invoked commands →
  call_each sys commands invoked = (Done tt, invoked ++ commands).
Proof.
  induction commands as [|a rest IH]; intros invoked Hzero.
  - by rewrite app_nil_r.
  - destruct Hzero as [Ha Hrest]. cbn [call_each].
    unfold mbind, SM_bind, sm_bind. rewrite (call_ok _ _ _ Ha).
    rewrite (IH _ Hrest). by rewrite <-app_assoc.
Qed.

Lemma call_each_stops sys done_ a rest : ∀ invoked,
  all_exit_zero sys invoked done_ →
  sys (invoked ++ done_) a ≠ Exited 0 →
  call_each sys (done_ ++ a :: rest) invoked
  = (Failed (call_error a (sys (invoked ++ done_) a)), invoked ++ done_ ++ [a]).
Proof.
  induction done_ as [|b done_ IH]; intros invoked Hzero Hfail.
  - rewrite app_nil_r in Hfail. simpl.
    unfold mbind, SM_bind, sm_bind. rewrite (call_fails _ _ _ Hfail).
    by rewrite app_nil_r.
  - destruct Hzero as [Hb Hzero]. simpl.
    unfold mbind, SM_bind, sm_bind. rewrite (call_ok _ _ _ Hb).
    replace (invoked ++ b :: done_) with ((invoked ++ [b]) ++ done_) in *
      by (by rewrite <-app_assoc).
    rewrite (IH _ Hzero Hfail). by rewrite <-!app_assoc.
Qed.

Lemma build_all_call_each sys working_cargo build_variants :
  build_all sys working_cargo build_variants
  = call_each sys (map (build_command working_cargo) build_variants).
Proof.
  induction build_variants as [|c rest IH]; [done|].
  simpl. by rewrite IH.
Qed.

(** The stage is the probe and then [call] on each planned command. *)
Lemma build_stage_planned sys build_variants invoked :
  build_stage sys build_variants invoked
  = call_each sys
      (planned_commands (cargo_found sys invoked) build_variants)
      (invoked ++ [Line "cargo -v"]).
Proof.
  unfold build_stage, mbind, SM_bind, sm_bind, probe_cargo, planned_commands.
  fold (cargo_found sys invoked). rewrite build_all_call_each.
  destruct (cargo_found sys invoked); [done|].
  unfold download. simpl. unfold mbind, SM_bind, sm_bind.
  by destruct (call sys _ _) as [[e|[]] invoked'].
Qed.
End build_facts.

(** X12: when the download of the compiler (made only if the probe for
    cargo did not exit with 0) and every build exit with 0, the stage
    returns, and the commands attempted are the probe, that download if
    any, and one build per variant in the order of the list, through cargo
    if it was found and through [ui-compiler.exe] if not. *)
Theorem build_stage_completes (sys : Script.system)
    (build_variants : list string) (invoked : list Script.args) :
  let commands :=
    Script.planned_commands (Script.cargo_found sys invoked) build_variants in
  Script.all_exit_zero sys (invoked ++ [Script.Line "cargo -v"]) commands →
  Script.build_stage sys build_variants invoked
  = (Script.Done tt, invoked ++ Script.Line "cargo -v" :: commands).
Proof.
  intros commands Hzero. rewrite build_stage_planned.
  fold commands. rewrite (call_each_ok _ _ _ Hzero).
  by rewrite <-app_assoc.
Qed.

Lemma build_stage_completes_witness :
  let sys : Script.system :=
    λ _ a, match a with
           | Script.Line "cargo -v" => Script.NotStarted
           | _ => Script.Exited 0
           end in
  Script.build_stage sys ["rei 2019.4.3 win"; "rei 2019.4.3 unix"] []
  = (Script.Done tt,
     [ Script.Line "cargo -v";
       Script.Argv ["curl"; "-OJLf"; Script.ui_compiler_url];
       Script.Line "ui-compiler.exe rei 2019.4.3 win";
       Script.Line "ui-compiler.exe rei 2019.4.3 unix" ]).
Proof.
  intros sys.
  apply (build_stage_completes sys ["rei 2019.4.3 win"; "rei 2019.4.3 unix"] []).
  simpl. tauto.
Defined.

(** X13: the first planned command that does not exit with 0 ends the
    stage: the exception of [call] for it comes out (the message names the
    command and its exit code; an [OSError] if it could not be started),
    and no later command is attempted. *)
Theorem build_stage_stops (sys : Script.system)
    (build_variants : list string) (invoked done_ rest : list Script.args)
    (a : Script.args) :
  Script.planned_commands (Script.cargo_found sys invoked) build_variants
    = done_ ++ a :: rest →
  Script.all_exit_zero sys (invoked ++ [Script.Line "cargo -v"]) done_ →
  let fate := sys ((invoked ++ [Script.Line "cargo -v"]) ++ done_) a in
  fate ≠ Script.Exited 0 →
  Script.build_stage sys build_variants invoked
  = (Script.Failed (Script.call_error a fate),
     (invoked ++ [Script.Line "cargo -v"]) ++ done_ ++ [a]).
Proof.
  intros Hplan Hzero fate Hfate. rewrite build_stage_planned, Hplan.
  by apply call_each_stops.
Qed.

Lemma build_stage_stops_witness :
  let sys : Script.system :=
    λ _ a, match a with
           | Script.Line "cargo run b" => Script.Exited 101
           | _ => Script.Exited 0
           end in
  Script.build_stage sys ["a"; "b"; "c"] []
  = (Script.Failed
       (Script.Py (Exception "ERROR: cargo run b exited with retcode: 101")),
     [ Script.Line "cargo -v"; Script.Line "cargo run a";
       Script.Line "cargo run b" ]).
Proof.
  intros sys.
  apply (build_stage_stops sys ["a"; "b"; "c"] []
           [Script.Line "cargo run a"] [Script.Line "cargo run c"]
           (Script.Line "cargo run b")).
  - reflexivity.
  - simpl. tauto.
  - discriminate.
Defined.

(** ** Refreshing a downloaded asset *)

Section refresh_facts.
Import Cache Script.
Implicit Types (net : remote) (url : string) (w : world) (fetch : fetcher).

Lemma refresh_unfold net url force_download fully_extracted fetch w :
  refresh net url force_download fully_extracted fetch w =
  match isRemoteModifiedAndUpdateMemory net url w with
  | (Raise e, w1) => (Failed (Py e), w1)
  | (Return modified, w1) =>
      if modified || force_download || negb fully_extracted then
        match fetch (files w1) with
        | (Failed e, fs) => (Failed e, World (lastModifiedDict w1) fs)
        | (Done _, fs) =>
            (Done tt,
             World (lastModifiedDict w1)
                   (<[savePath := Json.dumps (lastModifiedDict w1)]> fs))
        end
      else (Done tt, w1)
  end.
Proof.
  unfold refresh, mbind, SM_bind, sm_bind, lift_cache.
  destruct (isRemoteModifiedAndUpdateMemory net url w) as [[e|modified] w1];
    [done|].
  destruct (modified || force_download || negb fully_extracted); [|done].
  unfold run_fetcher. by destruct (fetch (files w1)) as [[e|[]] fs].
Qed.
End refresh_facts.

(** X14: a step does nothing at all when the remote date is the recorded
    one, no download is forced and the extraction is complete: it returns
    with the dict and the files as they were, and the download is not run. *)
Theorem refresh_skips (net : Cache.remote) (url t : string) (w : Cache.world)
    (fetch : Script.fetcher) :
  Cache.getRemoteLastModified net url = Return t →
  PyDict.get (Cache.lastModifiedDict w) url = Some t →
  Script.refresh net url false true fetch w = (Script.Done tt, w).
Proof.
  intros Hnet Hget. rewrite refresh_unfold.
  by rewrite (check_same _ _ _ _ Hnet Hget).
Qed.

Lemma refresh_skips_witness :
  let net : Cache.remote := λ _, Cache.Response (Some "T1") in
  let w := Cache.World [("u", "T1")] ∅ in
  Script.refresh net "u" false true (λ fs, (Script.Failed Script.OSError, ∅)) w
  = (Script.Done tt, w).
Proof.
  intros net w. apply (refresh_skips net "u" "T1"); reflexivity.
Defined.

(** X15: when the remote date differs from the recorded one, or the
    download is forced, or the extraction is not complete, and the download
    and extraction go through, the step returns with the date recorded and
    saved: the file holds the dict, and a manager constructed from the files
    is in the very state the step ends in. *)
Theorem refresh_persists (net : Cache.remote) (url t : string)
    (w : Cache.world) (force_download fully_extracted : bool)
    (fetch : Script.fetcher) (fs : gmap string string)
    (d0 : PyDict.dict string) :
  PyDict.wf (Cache.lastModifiedDict w) →
  Cache.getRemoteLastModified net url = Return t →
  PyDict.get (Cache.lastModifiedDict w) url ≠ Some t
    ∨ force_download = true ∨ fully_extracted = false →
  fetch (Cache.files w) = (Script.Done tt, fs) →
  ∃ w',
    Script.refresh net url force_download fully_extracted fetch w
      = (Script.Done tt, w') ∧
    PyDict.get (Cache.lastModifiedDict w') url = Some t ∧
    Cache.files w'
      = <[Cache.savePath := Json.dumps (Cache.lastModifiedDict w')]> fs ∧
    Cache.init (Cache.World d0 (Cache.files w')) = (Return tt, w').
Proof.
  intros Hwf Hnet Htrigger Hfetch. rewrite refresh_unfold.
  pose proof (check_records net url w t Hnet) as Hrec.
  pose proof (check_files net url w) as Hfiles.
  pose proof (check_wf net url w Hwf) as Hwf1.
  assert (∃ modified w1,
            Cache.isRemoteModifiedAndUpdateMemory net url w = (Return modified, w1) ∧
            modified || force_download || negb fully_extracted = true)
    as (modified & w1 & Hcheck & Hcond).
  { destruct (decide (PyDict.get (Cache.lastModifiedDict w) url = Some t))
      as [Hsame|Hdiff].
    - rewrite (check_same _ _ _ _ Hnet Hsame). do 2 eexists. split; [done|].
      destruct Htrigger as [?|[->| ->]]; [done|done|]. apply orb_true_r.
    - rewrite (check_changed _ _ _ _ Hnet Hdiff). by do 2 eexists. }
  rewrite Hcheck in *. simpl in Hrec, Hfiles, Hwf1. rewrite Hcond, Hfiles, Hfetch.
  eexists. split_and!; [done|done|done|].
  simpl. by apply init_reads_dumps.
Qed.

Lemma refresh_persists_witness :
  let net : Cache.remote := λ _, Cache.Response (Some "T1") in
  let w := Cache.World [("u", "T1")] ∅ in
  let fetch : Script.fetcher :=
    λ fs, (Script.Done tt, <["vanilla.7z" := "archive"]> fs) in
  ∃ w',
    Script.refresh net "u" true true fetch w = (Script.Done tt, w') ∧
    PyDict.get (Cache.lastModifiedDict w') "u" = Some "T1" ∧
    Cache.files w'
      = <[Cache.savePath := Json.dumps (Cache.lastModifiedDict w')]>
          (<["vanilla.7z" := "archive"]> ∅) ∧
    Cache.init (Cache.World [] (Cache.files w')) = (Return tt, w').
Proof.
  intros net w fetch.
  apply (refresh_persists net "u" "T1" w true true fetch).
  - apply (bool_decide_unpack _). by vm_compute.
  - reflexivity.
  - right. by left.
  - reflexivity.
Defined.

(** X16: when the download or the extraction raises, the step raises the
    same and [save] is not run: the files are as the failed download left
    them, while the manager's dict already holds the new date. *)
Theorem refresh_fetch_fails (net : Cache.remote) (url t : string)
    (w : Cache.world) (force_download fully_extracted : bool)
    (fetch : Script.fetcher) (fs : gmap string string) (e : Script.error) :
  Cache.getRemoteLastModified net url = Return t →
  PyDict.get (Cache.lastModifiedDict w) url ≠ Some t
    ∨ force_download = true ∨ fully_extracted = false →
  fetch (Cache.files w) = (Script.Failed e, fs) →
  ∃ d,
    Script.refresh net url force_download fully_extracted fetch w
      = (Script.Failed e, Cache.World d fs) ∧
    PyDict.get d url = Some t.
Proof.
  intros Hnet Htrigger Hfetch. rewrite refresh_unfold.
  pose proof (check_records net url w t Hnet) as Hrec.
  pose proof (check_files net url w) as Hfiles.
  destruct (decide (PyDict.get (Cache.lastModifiedDict w) url = Some t))
    as [Hsame|Hdiff].
  - rewrite (check_same _ _ _ _ Hnet Hsame) in *. simpl.
    assert (force_download || negb fully_extracted = true) as ->.
    { destruct Htrigger as [?|[->| ->]]; [done|done|]. apply orb_true_r. }
    rewrite Hfetch. by eexists.
  - rewrite (check_changed _ _ _ _ Hnet Hdiff) in *. simpl in *.
    rewrite Hfetch. by eexists.
Qed.

Lemma refresh_fetch_fails_witness :
  let net : Cache.remote := λ _, Cache.Response (Some "T2") in
  let w := Cache.World [("u", "T1")] {[ Cache.savePath := "{}" ]} in
  let fetch : Script.fetcher := λ fs, (Script.Failed Script.OSError, fs) in
  ∃ d,
    Script.refresh net "u" false true fetch w
      = (Script.Failed Script.OSError,
         Cache.World d {[ Cache.savePath := "{}" ]}) ∧
    PyDict.get d "u" = Some "T2".
Proof.
  intros net w fetch.
  apply (refresh_fetch_fails net "u" "T2" w false true fetch).
  - reflexivity.
  - left. discriminate.
  - reflexivity.
Defined.

(** X17: forcing the download does not do away with the request to the
    remote: when that request fails the step raises before anything is
    downloaded, whatever the flags, and the state is as it was. *)
Theorem refresh_needs_remote (net : Cache.remote) (url : string)
    (w : Cache.world) (force_download fully_extracted : bool)
    (fetch : Script.fetcher) (e : exn) :
  Cache.getRemoteLastModified net url = Raise e →
  Script.refresh net url force_download fully_extracted fetch w
  = (Script.Failed (Script.Py e), w).
Proof.
  intros Hnet. rewrite refresh_unfold.
  by rewrite (check_raises _ _ _ _ Hnet).
Qed.

Lemma refresh_needs_remote_witness :
  let net : Cache.remote := λ _, Cache.Unreachable in
  let w := Cache.World [("u", "T1")] ∅ in
  Script.refresh net "u" true false (λ fs, (Script.Done tt, ∅)) w
  = (Script.Failed (Script.Py URLError), w).
Proof.
  intros net w. apply (refresh_needs_remote net "u" w true false). reflexivity.
Defined.
